(** * ObservableVector3d (melonJS): a shallow embedding and its properties

    The class [ObservableVector3d] of the engine's math library is embedded
    method by method.  JavaScript numbers are IEEE-754 binary64
    values, so they are Rocq's primitive floats; the object returned by an
    [onUpdate] callback is a finite map from property names to numbers; the
    mutable receiver [this] and the record of callback invocations are
    threaded through a small state-and-exception monad. *)

From Stdlib Require Import Floats ZArith Bool List Lia.
From stdpp Require Import base option gmap strings.
Import ListNotations.

Local Open Scope string_scope.

(** ** JavaScript numbers and the operators the class uses on them *)

Module JS.

(** A JavaScript number is a binary64 float. *)
Abbreviation number := float.

(** [ToBoolean] on a number: [NaN], [+0] and [-0] are falsy. *)
Definition truthy (n : number) : bool :=
  negb (PrimFloat.is_nan n || PrimFloat.is_zero n).

(** [a || b] where [a] is a number. *)
Definition or_else (a b : number) : number :=
  if truthy a then a else b.

(** [o.k || b] where the property [k] may be missing on [o]
    ([undefined] is falsy). *)
Definition prop_or_else (a : option number) (b : number) : number :=
  match a with
  | Some n => or_else n b
  | None => b
  end.

(** [a === b] on numbers. *)
Definition strict_eq (a b : number) : bool := PrimFloat.eqb a b.

(** [a < b] where the left operand may be [undefined]: [ToNumber]
    turns [undefined] into [NaN] and every comparison with [NaN] is
    false. *)
Definition prop_lt (a : option number) (b : number) : bool :=
  match a with
  | Some n => PrimFloat.ltb n b
  | None => false
  end.

(** A parameter with a default value: the default replaces [undefined]. *)
Definition default_arg {A} (a : option A) (d : A) : A :=
  match a with
  | Some v => v
  | None => d
  end.

Inductive error :=
| Error (msg : string)
| TypeError (msg : string).

End JS.

Export JS.

Notation "a ||| b" := (JS.or_else a b) (at level 50, left associativity).
Notation "a ?|| b" := (JS.prop_or_else a b) (at level 50, left associativity).
Notation "a === b" := (JS.strict_eq a b) (at level 70, no associativity).

(** ** Data model *)

(** The receiver a callback is invoked against. *)
Inductive scope_val :=
| ScopeUndefined
| ScopeNull
| ScopeObject (id : nat).

(** What a callback hands back: nothing, or an object whose keys may
    include ["x"], ["y"] and ["z"]. *)
Inductive js_ret :=
| RetUndefined
| RetObject (o : gmap string number).

(** [ret && k in ret] *)
Definition has_key (ret : js_ret) (k : string) : bool :=
  match ret with
  | RetUndefined => false
  | RetObject o => bool_decide (is_Some (o !! k))
  end.

(** [ret.k], read where the key is known to be present; a missing key
    reads as [undefined], which is [NaN] as a number. *)
Definition get_key (ret : js_ret) (k : string) : number :=
  match ret with
  | RetUndefined => nan
  | RetObject o => default nan (o !! k)
  end.

(** [onUpdate.call(scope, newX, newY, newZ, oldX, oldY, oldZ)] *)
Definition callback : Type :=
  scope_val -> number -> number -> number -> number -> number -> number -> js_ret.

(** The values a caller may pass where a function is expected. *)
Inductive js_value :=
| JUndefined
| JNull
| JNumber (n : number)
| JString (s : string)
| JFunction (f : callback).

(** [typeof v === "function"] *)
Definition is_function (v : js_value) : bool :=
  match v with
  | JFunction _ => true
  | _ => false
  end.

(** The [settings] argument of the constructor and of [onResetEvent]. *)
Record settings := mk_settings {
  s_onUpdate : js_value;
  s_scope : scope_val;
}.

(** An argument vector: a [Vector2d], [Vector3d] or observable vector
    read through its [x], [y] and [z] properties; a 2D vector has no
    [z]. *)
Record vec := mk_vec {
  vx : number;
  vy : number;
  vz : option number;
}.

Definition Vector2d (x y : number) : vec := mk_vec x y None.
Definition Vector3d (x y z : number) : vec := mk_vec x y (Some z).

(** The fields of an [ObservableVector3d] instance.  [onUpdate] is
    [None] while the property has not been assigned yet, which is the
    case between [super(x, y, z)] and [setCallback] in the constructor. *)
Record ObservableVector3d := mk_ov {
  _x : number;
  _y : number;
  _z : number;
  onUpdate : option callback;
  scope : scope_val;
}.

(** [this._Z]: a property no method ever assigns. *)
Definition _Z (o : ObservableVector3d) : option number := None.

(** The getters [get x()], [get y()], [get z()]. *)
Definition get_x (o : ObservableVector3d) : number := _x o.
Definition get_y (o : ObservableVector3d) : number := _y o.
Definition get_z (o : ObservableVector3d) : number := _z o.

(** An observable vector passed as the argument of another one: its
    [x], [y] and [z] are read through the getters. *)
Definition as_vec (o : ObservableVector3d) : vec :=
  mk_vec (get_x o) (get_y o) (Some (get_z o)).

(** One invocation of a callback, as seen from outside. *)
Record call := mk_call {
  c_fn : callback;
  c_scope : scope_val;
  c_new : number * number * number;
  c_old : number * number * number;
}.

(** ** The monad: the receiver, the invocations so far, and exceptions *)

(** [this] is the receiver of the running method, [calls] the
    invocations of callbacks so far (oldest first), [pool] the released
    instances the object pool holds under the tag ["ObservableVector3d"]. *)
Record world := mk_world {
  this : ObservableVector3d;
  calls : list call;
  pool : list ObservableVector3d;
}.

Inductive outcome (A : Type) :=
| Ok (a : A)
| Throw (e : JS.error).
Arguments Ok {A} a.
Arguments Throw {A} e.

Definition M (A : Type) : Type := world -> outcome A * world.

#[global] Instance M_ret : MRet M := fun A a w => (Ok a, w).

#[global] Instance M_bind : MBind M := fun A B k m w =>
  match m w with
  | (Ok a, w') => k a w'
  | (Throw e, w') => (Throw e, w')
  end.

Definition throw {A} (e : JS.error) : M A := fun w => (Throw e, w).

Definition get_this : M ObservableVector3d := fun w => (Ok (this w), w).

Definition modify_this (f : ObservableVector3d -> ObservableVector3d) : M unit :=
  fun w => (Ok tt, mk_world (f (this w)) (calls w) (pool w)).

(** Field assignments [this._x = v], ... *)
Definition set__x (v : number) : M unit :=
  modify_this (fun o => mk_ov v (_y o) (_z o) (onUpdate o) (scope o)).
Definition set__y (v : number) : M unit :=
  modify_this (fun o => mk_ov (_x o) v (_z o) (onUpdate o) (scope o)).
Definition set__z (v : number) : M unit :=
  modify_this (fun o => mk_ov (_x o) (_y o) v (onUpdate o) (scope o)).
Definition set_onUpdate (f : callback) : M unit :=
  modify_this (fun o => mk_ov (_x o) (_y o) (_z o) (Some f) (scope o)).
Definition set_scope (s : scope_val) : M unit :=
  modify_this (fun o => mk_ov (_x o) (_y o) (_z o) (onUpdate o) s).

(** [this.onUpdate.call(this.scope, a, b, c, this._x, this._y, this._z)].
    The callback is a function of its receiver and arguments, and what it
    returns is all it does to the vector (a callback that writes to the
    vector it observes is outside the model); calling an unassigned
    [onUpdate] is a [TypeError]. *)
Definition call_onUpdate (a b c : number) : M js_ret :=
  fun w =>
    let o := this w in
    match onUpdate o with
    | None => (Throw (TypeError "this.onUpdate is undefined"), w)
    | Some f =>
        (Ok (f (scope o) a b c (_x o) (_y o) (_z o)),
         mk_world o
           (calls w ++ [mk_call f (scope o) (a, b, c) (_x o, _y o, _z o)])
           (pool w))
    end.

(** What a chainable method returns: the receiver, or (in one branch of
    [moveTowards]) the argument it was given. *)
Inductive ref :=
| RefThis
| RefArg (v : vec).

(** ** The setters *)

Module Setters.

(** [set x(value)] *)
Definition set_x (value : number) : M unit :=
  o ← get_this;
  r ← call_onUpdate value (_y o) (_z o);
  if has_key r "x" then set__x (get_key r "x") else set__x value.

(** [set y(value)] *)
Definition set_y (value : number) : M unit :=
  o ← get_this;
  r ← call_onUpdate (_x o) value (_z o);
  if has_key r "y" then set__y (get_key r "y") else set__y value.

(** [set z(value)] *)
Definition set_z (value : number) : M unit :=
  o ← get_this;
  r ← call_onUpdate (_x o) (_y o) value;
  if has_key r "z" then set__z (get_key r "z") else set__z value.

End Setters.

Export Setters.

(** [_set(x, y, z)] *)
Definition _set (x y z : number) : M ref :=
  r ← call_onUpdate x y z;
  (if has_key r "x" && has_key r "y" && has_key r "z" then
     set__x (get_key r "x");;
     set__y (get_key r "y");;
     set__z (get_key r "z")
   else
     set__x x;;
     set__y y;;
     set__z (z ||| 0%float));;
  mret RefThis.

(** [setMuted(x, y, z)]; [z] is optional. *)
Definition setMuted (x y : number) (z : option number) : M ref :=
  set__x x;;
  set__y y;;
  set__z (z ?|| 0%float);;
  mret RefThis.

(** The default [scope = null] of [setCallback]: it replaces
    [undefined]. *)
Definition scope_or_null (sc : scope_val) : scope_val :=
  match sc with
  | ScopeUndefined => ScopeNull
  | s => s
  end.

(** [setCallback(fn, scope = null)] *)
Definition setCallback (fn : js_value) (scope : scope_val) : M ref :=
  let scope := scope_or_null scope in
  match fn with
  | JFunction f =>
      set_onUpdate f;;
      set_scope scope;;
      mret RefThis
  | _ => throw (Error "invalid `onUpdate` callback")
  end.

(** ** Construction, reset and the pool *)

(** [onResetEvent(x = 0, y = 0, z = 0, settings)] *)
Definition onResetEvent (x y z : option number) (settings : option settings)
  : M ref :=
  setMuted (default_arg x 0%float) (default_arg y 0%float)
           (Some (default_arg z 0%float));;
  match settings with
  | Some s => setCallback (s_onUpdate s) (s_scope s);; mret tt
  | None => mret tt
  end;;
  mret RefThis.

(** Modelled from the spec: the constructor of the base class [Vector3d]
    is not among the sources.  The spec has construction go through the
    muted path, and the comment in [onResetEvent] says that it is what the
    constructor calls: [super(x, y, z)] runs [this.onResetEvent(x, y, z)],
    with no settings. *)
Definition Vector3d_constructor (x y z : option number) : M unit :=
  onResetEvent x y z None;; mret tt.

(** [constructor(x = 0, y = 0, z = 0, settings)] *)
Definition constructor (x y z : option number) (settings : option settings)
  : M unit :=
  Vector3d_constructor x y z;;
  match settings with
  | None => throw (Error "undefined `onUpdate` callback")
  | Some s => setCallback (s_onUpdate s) (s_scope s);; mret tt
  end.

(** The object a [new] expression hands to the constructor: no own
    property is assigned yet. *)
Definition blank : ObservableVector3d :=
  mk_ov nan nan nan None ScopeUndefined.

(** Run [m] with [o] as receiver, then come back to the current
    receiver; the invocations and the pool are shared. *)
Definition on_object {A} (o : ObservableVector3d) (m : M A)
  : M (A * ObservableVector3d) :=
  fun w =>
    match m (mk_world o (calls w) (pool w)) with
    | (Ok a, w') => (Ok (a, this w'), mk_world (this w) (calls w') (pool w'))
    | (Throw e, w') => (Throw e, mk_world (this w) (calls w') (pool w'))
    end.

(** [new ObservableVector3d(x, y, z, settings)] *)
Definition new_ObservableVector3d (x y z : option number)
  (settings : option settings) : M ObservableVector3d :=
  r ← on_object blank (constructor x y z settings);
  mret (snd r).

(** Modelled from the spec: the object pool ([system/pooling.js]) is not
    among the sources.  [pool.pull("ObservableVector3d", x, y, z, settings)]
    reuses a released instance of the tag, re-initialised through its reset
    hook [onResetEvent] with the arguments given, or, when none is left,
    constructs a new instance from them. *)
Definition pool_pull (x y z : option number) (settings : option settings)
  : M ObservableVector3d :=
  fun w =>
    match pool w with
    | [] => new_ObservableVector3d x y z settings w
    | o :: rest =>
        (r ← on_object o (onResetEvent x y z settings); mret (snd r))
          (mk_world (this w) (calls w) rest)
    end.

(** The value of the property [this.onUpdate]. *)
Definition onUpdate_value (o : ObservableVector3d) : js_value :=
  match onUpdate o with
  | Some f => JFunction f
  | None => JUndefined
  end.

(** ** The methods *)

(** The functions of [Math] the class calls, and [clamp] of [math.ts],
    none of which is in the sources; [Math.sqrt] is the IEEE-754 square
    root. *)
Record Env := mk_env {
  Math_atan2 : number -> number -> number;
  Math_cos : number -> number;
  Math_sin : number -> number;
  Math_floor : number -> number;
  Math_ceil : number -> number;
  clamp : number -> number -> number -> number;
}.

Definition Math_sqrt : number -> number := PrimFloat.sqrt.

Section Methods.

Context (E : Env).

Local Open Scope float_scope.

(** [add(v)] *)
Definition add (v : vec) : M ref :=
  o ← get_this;
  _set (_x o + vx v) (_y o + vy v) (_z o + (vz v ?|| 0)).

(** [sub(v)] *)
Definition sub (v : vec) : M ref :=
  o ← get_this;
  _set (_x o - vx v) (_y o - vy v) (_z o - (vz v ?|| 0)).

(** [scale(x, y = x, z = 1)] *)
Definition scale (x : number) (y z : option number) : M ref :=
  o ← get_this;
  _set (_x o * x) (_y o * default_arg y x) (_z o * default_arg z 1).

(** [scaleV(v)] *)
Definition scaleV (v : vec) : M ref :=
  o ← get_this;
  _set (_x o * vx v) (_y o * vy v) (_z o * (vz v ?|| 1)).

(** [div(n)] *)
Definition div (n : number) : M ref :=
  o ← get_this;
  _set (_x o / n) (_y o / n) (_z o / n).

(** [abs()]; the third test reads [this._Z]. *)
Definition abs : M ref :=
  o ← get_this;
  _set (if _x o <? 0 then - _x o else _x o)
       (if _y o <? 0 then - _y o else _y o)
       (if prop_lt (_Z o) 0 then - _z o else _z o).

(** [clamp(low, high)] *)
Definition clamp_ (low high : number) : M ObservableVector3d :=
  o ← get_this;
  new_ObservableVector3d
    (Some (clamp E (_x o) low high))
    (Some (clamp E (_y o) low high))
    (Some (clamp E (_z o) low high))
    (Some (mk_settings (onUpdate_value o) (scope o))).

(** [clampSelf(low, high)] *)
Definition clampSelf (low high : number) : M ref :=
  o ← get_this;
  _set (clamp E (_x o) low high)
       (clamp E (_y o) low high)
       (clamp E (_z o) low high).

(** [minV(v)] *)
Definition minV (v : vec) : M ref :=
  o ← get_this;
  let _vz := vz v ?|| 0 in
  _set (if _x o <? vx v then _x o else vx v)
       (if _y o <? vy v then _y o else vy v)
       (if _z o <? _vz then _z o else _vz).

(** [maxV(v)] *)
Definition maxV (v : vec) : M ref :=
  o ← get_this;
  let _vz := vz v ?|| 0 in
  _set (if vx v <? _x o then _x o else vx v)
       (if vy v <? _y o then _y o else vy v)
       (if _vz <? _z o then _z o else _vz).

(** [floor()] *)
Definition floor : M ObservableVector3d :=
  o ← get_this;
  new_ObservableVector3d
    (Some (Math_floor E (_x o)))
    (Some (Math_floor E (_y o)))
    (Some (Math_floor E (_z o)))
    (Some (mk_settings (onUpdate_value o) (scope o))).

(** [floorSelf()] *)
Definition floorSelf : M ref :=
  o ← get_this;
  _set (Math_floor E (_x o)) (Math_floor E (_y o)) (Math_floor E (_z o)).

(** [ceil()] *)
Definition ceil : M ObservableVector3d :=
  o ← get_this;
  new_ObservableVector3d
    (Some (Math_ceil E (_x o)))
    (Some (Math_ceil E (_y o)))
    (Some (Math_ceil E (_z o)))
    (Some (mk_settings (onUpdate_value o) (scope o))).

(** [ceilSelf()] *)
Definition ceilSelf : M ref :=
  o ← get_this;
  _set (Math_ceil E (_x o)) (Math_ceil E (_y o)) (Math_ceil E (_z o)).

(** [negate()] *)
Definition negate : M ObservableVector3d :=
  o ← get_this;
  new_ObservableVector3d
    (Some (- _x o)) (Some (- _y o)) (Some (- _z o))
    (Some (mk_settings (onUpdate_value o) (scope o))).

(** [negateSelf()] *)
Definition negateSelf : M ref :=
  o ← get_this;
  _set (- _x o) (- _y o) (- _z o).

(** [copy(v)] *)
Definition copy (v : vec) : M ref :=
  _set (vx v) (vy v) (vz v ?|| 0).

(** [equals(v)] *)
Definition equals (o : ObservableVector3d) (v : vec) : bool :=
  (_x o === vx v) && (_y o === vy v) && (_z o === (vz v ?|| _z o)).

(** [perp()] *)
Definition perp : M ref :=
  o ← get_this;
  _set (_y o) (- _x o) (_z o).

(** [rotate(angle, v)]; [v] is optional. *)
Definition rotate (angle : number) (v : option vec) : M ref :=
  o ← get_this;
  let '(cx, cy) :=
    match v with
    | Some p => (vx p, vy p)
    | None => (0, 0)
    end in
  let x := get_x o - cx in
  let y := get_y o - cy in
  let c := Math_cos E angle in
  let s := Math_sin E angle in
  _set (x * c - y * s + cx) (x * s + y * c + cy) (get_z o).

(** [dot(v)] *)
Definition dot (o : ObservableVector3d) (v : vec) : number :=
  _x o * vx v + _y o * vy v + _z o * (vz v ?|| 1).

(** [cross(v)]; the argument is a 3D vector. *)
Definition cross (v : vec) : M ref :=
  o ← get_this;
  let ax := _x o in
  let ay := _y o in
  let az := _z o in
  let bx := vx v in
  let by_ := vy v in
  let bz := default nan (vz v) in
  _set (ay * bz - az * by_) (az * bx - ax * bz) (ax * by_ - ay * bx).

(** [lerp(v, alpha)]; the argument is a 3D vector. *)
Definition lerp (v : vec) (alpha : number) : M ref :=
  o ← get_this;
  _set (_x o + (vx v - _x o) * alpha)
       (_y o + (vy v - _y o) * alpha)
       (_z o + (default nan (vz v) - _z o) * alpha).

(** [moveTowards(target, step)] *)
Definition moveTowards (target : vec) (step : number) : M ref :=
  o ← get_this;
  let angle := Math_atan2 E (vy target - _y o) (vx target - _x o) in
  let dx := _x o - vx target in
  let dy := _y o - vy target in
  let distance := Math_sqrt (dx * dx + dy * dy) in
  if (distance === 0) || ((0 <=? step) && (distance <=? step * step)) then
    mret (RefArg target)
  else
    _set (_x o + Math_cos E angle * step)
         (_y o + Math_sin E angle * step)
         (_z o).

(** [distance(v)] *)
Definition distance (o : ObservableVector3d) (v : vec) : number :=
  let dx := _x o - vx v in
  let dy := _y o - vy v in
  let dz := _z o - (vz v ?|| 0) in
  Math_sqrt (dx * dx + dy * dy + dz * dz).

(** [clone()] *)
Definition clone : M ObservableVector3d :=
  o ← get_this;
  pool_pull (Some (_x o)) (Some (_y o)) (Some (_z o))
            (Some (mk_settings (onUpdate_value o) ScopeUndefined)).

End Methods.

(** Every method that writes through [_set] unconditionally. *)
Inductive mutation :=
| MAdd (v : vec)
| MSub (v : vec)
| MScale (x : number) (y z : option number)
| MScaleV (v : vec)
| MDiv (n : number)
| MAbs
| MClampSelf (low high : number)
| MMinV (v : vec)
| MMaxV (v : vec)
| MFloorSelf
| MCeilSelf
| MNegateSelf
| MCopy (v : vec)
| MPerp
| MRotate (angle : number) (v : option vec)
| MCross (v : vec)
| MLerp (v : vec) (alpha : number).

Definition exec (E : Env) (m : mutation) : M ref :=
  match m with
  | MAdd v => add v
  | MSub v => sub v
  | MScale x y z => scale x y z
  | MScaleV v => scaleV v
  | MDiv n => div n
  | MAbs => abs
  | MClampSelf low high => clampSelf E low high
  | MMinV v => minV v
  | MMaxV v => maxV v
  | MFloorSelf => floorSelf E
  | MCeilSelf => ceilSelf E
  | MNegateSelf => negateSelf
  | MCopy v => copy v
  | MPerp => perp
  | MRotate angle v => rotate E angle v
  | MCross v => cross v
  | MLerp v alpha => lerp v alpha
  end.

(** Every method and setter that runs on a constructed vector, with its
    result dropped. *)
Inductive operation :=
| OpSetX (value : number)
| OpSetY (value : number)
| OpSetZ (value : number)
| OpMutation (m : mutation)
| OpSetMuted (x y : number) (z : option number)
| OpSetCallback (fn : js_value) (scope : scope_val)
| OpOnResetEvent (x y z : option number) (settings : option settings)
| OpMoveTowards (target : vec) (step : number)
| OpClamp (low high : number)
| OpFloor
| OpCeil
| OpNegate
| OpClone.

Definition run_op (E : Env) (op : operation) : M unit :=
  match op with
  | OpSetX value => set_x value
  | OpSetY value => set_y value
  | OpSetZ value => set_z value
  | OpMutation m => exec E m;; mret tt
  | OpSetMuted x y z => setMuted x y z;; mret tt
  | OpSetCallback fn scope => setCallback fn scope;; mret tt
  | OpOnResetEvent x y z settings => onResetEvent x y z settings;; mret tt
  | OpMoveTowards target step => moveTowards E target step;; mret tt
  | OpClamp low high => clamp_ E low high;; mret tt
  | OpFloor => floor E;; mret tt
  | OpCeil => ceil E;; mret tt
  | OpNegate => negate;; mret tt
  | OpClone => clone;; mret tt
  end.

(** ** Vocabulary of the statements *)

Local Open Scope float_scope.

(** The callback's return is an object that has the key [k], with value
    [n]. *)
Definition returns_key (r : js_ret) (k : string) (n : number) : Prop :=
  exists o, r = RetObject o /\ o !! k = Some n.

(** The callback returned nothing, or an object without the key [k]. *)
Definition lacks_key (r : js_ret) (k : string) : Prop :=
  r = RetUndefined \/ exists o, r = RetObject o /\ o !! k = None.

Definition coords (o : ObservableVector3d) : number * number * number :=
  (_x o, _y o, _z o).

(** The vector is usable: a callback is bound. *)
Definition bound (o : ObservableVector3d) : Prop :=
  exists f, onUpdate o = Some f.

(** Callbacks used in examples. *)
Definition cb_silent : callback :=
  fun _ _ _ _ _ _ _ => RetUndefined.

Definition cb_ten : callback :=
  fun _ _ _ _ _ _ _ =>
    RetObject {[ "x" := 10%float; "y" := 10%float; "z" := 10%float ]}.

Definition cb_only_x : callback :=
  fun _ _ _ _ _ _ _ => RetObject {[ "x" := 7%float ]}.

Definition start (o : ObservableVector3d) : world := mk_world o [] [].

(** How one axis is committed from the callback's return [r]: the value
    under the axis' key when [r] is an object that has it, the attempted
    value otherwise. *)
Definition committed_axis (r : js_ret) (k : string)
    (attempted committed : number) : Prop :=
  (forall n, returns_key r k n -> committed = n) /\
  (lacks_key r k -> committed = attempted).

(** A callback that leaves every batch write as attempted: whatever it
    is called with, its return lacks one of the three keys. *)
Definition notifies_only (f : callback) : Prop :=
  forall sc a b c a' b' c',
    let r := f sc a b c a' b' c' in
    lacks_key r "x" \/ lacks_key r "y" \/ lacks_key r "z".

(** The method ran to its end on the receiver and the stored [z] is
    [===] to the former one. *)
Definition z_kept (m : M ref) (w : world) : Prop :=
  exists w',
    m w = (Ok RefThis, w') /\ (_z (this w') === _z (this w)) = true.

(** An environment for examples; its functions are placeholders. *)
Definition env0 : Env :=
  mk_env (fun _ _ => 0%float) (fun _ => 1%float) (fun _ => 0%float)
         (fun n => n) (fun n => n) (fun n _ _ => n).

(** ** Vocabulary of the further properties *)

(** The methods that come in two forms: the plain one returns a new
    vector, the [Self] one writes to the receiver. *)
Inductive twin :=
| TClamp (low high : number)
| TFloor
| TCeil
| TNegate.

Definition twin_new (E : Env) (t : twin) : M ObservableVector3d :=
  match t with
  | TClamp low high => clamp_ E low high
  | TFloor => floor E
  | TCeil => ceil E
  | TNegate => negate
  end.

Definition twin_self (E : Env) (t : twin) : M ref :=
  match t with
  | TClamp low high => clampSelf E low high
  | TFloor => floorSelf E
  | TCeil => ceilSelf E
  | TNegate => negateSelf
  end.

(** A chain of calls on one receiver, [a.add(v).sub(w)...]: it stops at
    the first call that throws. *)
Fixpoint run_ops (E : Env) (ops : list operation) : M unit :=
  match ops with
  | [] => mret tt
  | op :: rest => run_op E op;; run_ops E rest
  end.

(** The setters and the methods that always go through [_set]. *)
Definition is_write (op : operation) : bool :=
  match op with
  | OpSetX _ | OpSetY _ | OpSetZ _ | OpMutation _ => true
  | _ => false
  end.

(** Componentwise [===]. *)
Definition same_coords (a b : number * number * number) : bool :=
  let '(ax, ay, az) := a in
  let '(bx, by_, bz) := b in
  (ax === bx) && (ay === by_) && (az === bz).

(** The mutations that work in the XY plane. *)
Definition planar (m : mutation) : bool :=
  match m with
  | MPerp | MRotate _ _ | MAbs | MScale _ _ None => true
  | _ => false
  end.

(** Componentwise [<=]. *)
Definition coords_le (a b : number * number * number) : bool :=
  let '(ax, ay, az) := a in
  let '(bx, by_, bz) := b in
  (ax <=? bx) && (ay <=? by_) && (az <=? bz).

(** A callback that returns nothing a setter or a batch write would
    take: its return lacks the three keys. *)
Definition never_overrides (f : callback) : Prop :=
  forall sc a b c a' b' c',
    let r := f sc a b c a' b' c' in
    lacks_key r "x" /\ lacks_key r "y" /\ lacks_key r "z".

(** A vector and a world for examples. *)
Definition o123 : ObservableVector3d := mk_ov 1 2 3 (Some cb_silent) ScopeNull.
Definition w123 : world := start o123.

(** ** Entities

    The methods of [me.Entity] and [me.LevelEntity] that work on the
    entity's own fields; what they call on the renderable, the body, the
    level director and the viewport is recorded as events. *)

Module Entity.

(** [ToBoolean] on a value that is a string or [undefined]: the empty
    string and [undefined] are falsy. *)
Definition truthy_string (s : option string) : bool :=
  match s with
  | Some "" | None => false
  | Some _ => true
  end.

(** [ToBoolean] on a value that is a number or [undefined]. *)
Definition truthy_number (n : option number) : bool :=
  match n with
  | Some n => truthy n
  | None => false
  end.

(** The calls an entity makes on its collaborators (the renderable, the
    body, the level director, the viewport), none of which is in the
    sources: they are recorded, oldest first. *)
Inductive event :=
| RenderableFlipX (flip : bool)
| RenderableFlipY (flip : bool)
| BodyFlipX (flip : bool)
| BodyFlipY (flip : bool)
| LoadLevel (level : option string)
| FadeIn (fade : option string) (duration : option number)
| FadeOut (fade : option string) (duration : option number).

(** What [flipX] and [flipY] look at in [this.renderable]: whether it
    has the methods [flipX] and [flipY]. *)
Record renderable_shape := mk_renderable {
  has_flipX : bool;
  has_flipY : bool;
}.

(** The fields of [me.Entity] that [flipX] and [flipY] read and write;
    [renderable] and [body] are [null] when absent. *)
Record entity := mk_entity {
  renderable : option renderable_shape;
  body : bool;
  lastflipX : bool;
  lastflipY : bool;
}.

(** [flip !== this.lastflipX] on booleans. *)
Definition bool_neq (a b : bool) : bool := negb (Bool.eqb a b).

(** [flipX(flip)] *)
Definition flipX (flip : bool) (e : entity) : entity * list event :=
  if bool_neq flip (lastflipX e) then
    (mk_entity (renderable e) (body e) flip (lastflipY e),
     (match renderable e with
      | Some r => if has_flipX r then [RenderableFlipX flip] else []
      | None => []
      end ++
      if body e then [BodyFlipX flip] else [])%list)
  else (e, []).

(** [flipY(flip)] *)
Definition flipY (flip : bool) (e : entity) : entity * list event :=
  if bool_neq flip (lastflipY e) then
    (mk_entity (renderable e) (body e) (lastflipX e) flip,
     (match renderable e with
      | Some r => if has_flipY r then [RenderableFlipY flip] else []
      | None => []
      end ++
      if body e then [BodyFlipY flip] else [])%list)
  else (e, []).

(** The position and half extents [distanceTo] reads on an entity. *)
Record placed := mk_placed {
  pos_x : number;
  pos_y : number;
  hWidth : number;
  hHeight : number;
}.

(** [distanceTo(e)] *)
Definition distanceTo (a e : placed) : number :=
  let dx := (pos_x a + hWidth a) - (pos_x e + hWidth e) in
  let dy := (pos_y a + hHeight a) - (pos_y e + hHeight e) in
  Math_sqrt (dx * dx + dy * dy).

(** [distanceToPoint(v)] *)
Definition distanceToPoint (a : placed) (v : vec) : number :=
  let dx := (pos_x a + hWidth a) - vx v in
  let dy := (pos_y a + hHeight a) - vy v in
  Math_sqrt (dx * dx + dy * dy).

(** The fields of [me.LevelEntity] its methods read and write. *)
Record level_entity := mk_level_entity {
  nextlevel : option string;
  fade : option string;
  duration : option number;
  fading : bool;
  name : string;
  gotolevel : option string;
}.

(** [level || this.nextlevel] *)
Definition level_or (level next : option string) : option string :=
  if truthy_string level then level else next.

(** [goTo(level)] *)
Definition goTo (level : option string) (e : level_entity)
  : level_entity * list event :=
  let target := level_or level (nextlevel e) in
  let e1 := mk_level_entity (nextlevel e) (fade e) (duration e) (fading e)
                            (name e) target in
  if truthy_string (fade e) && truthy_number (duration e) then
    if negb (fading e) then
      (mk_level_entity (nextlevel e) (fade e) (duration e) true (name e) target,
       [FadeIn (fade e) (duration e)])
    else (e1, [])
  else (e1, [LoadLevel target]).

(** [onFadeComplete()] *)
Definition onFadeComplete (e : level_entity) : level_entity * list event :=
  (e, [LoadLevel (gotolevel e); FadeOut (fade e) (duration e)]).

(** [onCollision()], with the value it returns. *)
Definition onCollision (e : level_entity)
  : bool * (level_entity * list event) :=
  (false, if String.eqb (name e) "levelEntity" then goTo None e else (e, [])).

(** A sequence of [goTo] calls. *)
Fixpoint goTo_all (levels : list (option string)) (e : level_entity)
  : level_entity * list event :=
  match levels with
  | [] => (e, [])
  | level :: rest =>
      let '(e1, ev1) := goTo level e in
      let '(e2, ev2) := goTo_all rest e1 in
      (e2, (ev1 ++ ev2)%list)
  end.

(** The entity fades between levels. *)
Definition fades (e : level_entity) : bool :=
  truthy_string (fade e) && truthy_number (duration e).

(** A level entity for examples. *)
Definition fader : level_entity :=
  mk_level_entity (Some "map2") (Some "#000") (Some 250) false "levelEntity"
                  None.

End Entity.

(** ** Facts of binary64 arithmetic

    Proved from the specification of the primitive floats. *)

Module Binary64.

Local Open Scope float_scope.

Lemma Prim2SF_zero : Prim2SF 0 = S754_zero false.
Proof. reflexivity. Qed.

Lemma Prim2SF_one : Prim2SF 1 = S754_finite false 4503599627370496 (-52).
Proof. reflexivity. Qed.

Lemma SFcompare_refl (x : spec_float) :
  x <> S754_nan -> SFcompare x x = Some Eq.
Proof.
  destruct x as [[]|[]| |[] m e]; cbn; try reflexivity; try congruence;
    intros _; rewrite Z.compare_refl.
  - fold (Pos.compare m m). rewrite Pos.compare_refl. reflexivity.
  - fold (Pos.compare m m). rewrite Pos.compare_refl. reflexivity.
Qed.

Lemma is_nan_spec (x : float) :
  is_nan x = true <-> Prim2SF x = S754_nan.
Proof.
  unfold is_nan. rewrite FloatAxioms.eqb_spec. unfold SFeqb. split.
  - intros H. destruct (Prim2SF x) eqn:Hx; try reflexivity;
      rewrite SFcompare_refl in H by discriminate; discriminate.
  - intros ->. reflexivity.
Qed.

Lemma is_zero_spec (x : float) :
  is_zero x = true <-> exists s, Prim2SF x = S754_zero s.
Proof.
  unfold is_zero. rewrite FloatAxioms.eqb_spec.
  change (Prim2SF zero) with (S754_zero false). unfold SFeqb. split.
  - destruct (Prim2SF x) as [s|[]| |[] m e]; cbn; try discriminate. eauto.
  - intros [s ->]. reflexivity.
Qed.

(** [x < 0 ? -x : x] is never below zero. *)
Lemma abs_expr_not_negative (x : float) :
  ((if x <? 0 then - x else x) <? 0) = false.
Proof.
  destruct (x <? 0) eqn:H; [| exact H].
  rewrite FloatAxioms.ltb_spec, opp_spec, Prim2SF_zero.
  rewrite FloatAxioms.ltb_spec, Prim2SF_zero in H.
  destruct (Prim2SF x) as [[]|[]| |[] m e]; cbn in *; congruence.
Qed.

(** [x - 0] is [x]. *)
Lemma sub_zero (x : float) : x - 0 = x.
Proof.
  apply Prim2SF_inj. rewrite sub_spec, Prim2SF_zero.
  destruct (Prim2SF x) as [[]|[]| |[] m e]; reflexivity.
Qed.

(** [x + 0 === x] unless [x] is [NaN] ([-0 + 0] is [+0]). *)
Lemma add_zero_strict_eq (x : float) :
  (x + 0 =? x) = negb (is_nan x).
Proof.
  unfold is_nan. rewrite !FloatAxioms.eqb_spec, add_spec, Prim2SF_zero.
  destruct (Prim2SF x) as [[]|[]| |[] m e] eqn:Hx; try reflexivity;
    unfold SF64add, SFadd, SFeqb; rewrite SFcompare_refl by discriminate;
    reflexivity.
Qed.

Lemma digits2_pos_shift (m : positive) :
  Zpos (digits2_pos (4503599627370496 * m)) = (Zpos (digits2_pos m) + 52)%Z.
Proof.
  change (4503599627370496 * m)%positive with (Pos.iter xO m 52).
  cbn [Pos.iter digits2_pos]. lia.
Qed.

Lemma shr_shift (m : positive) :
  SpecFloat.iter_pos shr_1 52
    (Build_shr_record (Zpos (4503599627370496 * m)) false false)
  = Build_shr_record (Zpos m) false false.
Proof. reflexivity. Qed.

Lemma shr_fexp_shifted (m : positive) (e : Z) :
  fexp prec emax (Zpos (digits2_pos m) + e) = e ->
  shr_fexp prec emax (Zpos (4503599627370496 * m)) (e + -52) loc_Exact
  = (Build_shr_record (Zpos m) false false, e).
Proof.
  intros Hc. unfold shr_fexp, Zdigits2. rewrite digits2_pos_shift.
  replace (Z.pos (digits2_pos m) + 52 + (e + -52))%Z
    with (Z.pos (digits2_pos m) + e)%Z by lia.
  rewrite Hc. replace (e - (e + -52))%Z with 52%Z by lia.
  unfold shr, shr_record_of_loc. rewrite shr_shift. f_equal. lia.
Qed.

Lemma shr_fexp_canonical (m : positive) (e : Z) :
  fexp prec emax (Zpos (digits2_pos m) + e) = e ->
  shr_fexp prec emax (Zpos m) e loc_Exact
  = (Build_shr_record (Zpos m) false false, e).
Proof.
  intros Hc. unfold shr_fexp, Zdigits2. rewrite Hc, Z.sub_diag. reflexivity.
Qed.

(** [x * 1] is [x]. *)
Lemma mul_one (x : float) : x * 1 = x.
Proof.
  apply Prim2SF_inj. rewrite mul_spec, Prim2SF_one.
  pose proof (Prim2SF_valid x) as Hv. revert Hv.
  destruct (Prim2SF x) as [s|s| |s m e];
    try reflexivity; try (destruct s; reflexivity).
  intros Hv. unfold valid_binary, SpecFloat.valid_binary in Hv.
  unfold bounded, canonical_mantissa in Hv.
  apply andb_prop in Hv. destruct Hv as [Hc Hb]. apply Z.eqb_eq in Hc.
  unfold SF64mul, SFmul. rewrite xorb_false_r, Pos.mul_comm.
  unfold binary_round_aux. rewrite (shr_fexp_shifted m e Hc).
  cbn [shr_m loc_of_shr_record round_nearest_even].
  rewrite (shr_fexp_canonical m e Hc). cbn [shr_m].
  rewrite Hb. reflexivity.
Qed.

(** [x === x] unless [x] is [NaN]. *)
Lemma eqb_refl_not_nan (x : float) : (x =? x) = negb (is_nan x).
Proof. unfold is_nan. rewrite negb_involutive. reflexivity. Qed.

(** [x < 0 ? -x : x] is [Math.abs(x)] up to [===] ([-0] stays [-0]). *)
Lemma abs_expr_strict_eq (x : float) :
  is_nan x = false ->
  ((if x <? 0 then - x else x) =? PrimFloat.abs x) = true.
Proof.
  intros Hn. assert (Hx : Prim2SF x <> S754_nan).
  { intros H. apply is_nan_spec in H. congruence. }
  destruct (x <? 0) eqn:H; rewrite FloatAxioms.ltb_spec, Prim2SF_zero in H;
    rewrite FloatAxioms.eqb_spec, abs_spec, ?opp_spec;
    destruct (Prim2SF x) as [[]|[]| |[] m e]; cbn in H; try congruence;
    try reflexivity; unfold SFeqb; rewrite SFcompare_refl by discriminate;
    reflexivity.
Qed.

(** If [x === y] then [(x || 0) === y]. *)
Lemma or_zero_eqb (x y : float) :
  (x =? y) = true ->
  ((if negb (is_nan x || is_zero x) then x else 0) =? y) = true.
Proof.
  intros H. destruct (is_nan x) eqn:Hn.
  - apply is_nan_spec in Hn. rewrite FloatAxioms.eqb_spec, Hn in H.
    discriminate.
  - cbn [orb]. destruct (is_zero x) eqn:Hz; cbn [negb]; [| exact H].
    apply is_zero_spec in Hz. destruct Hz as [s Hs].
    rewrite FloatAxioms.eqb_spec in *. rewrite Hs in H. rewrite Prim2SF_zero.
    destruct (Prim2SF y) as [[]|[]| |[] m e]; cbn in *; congruence.
Qed.

End Binary64.

(** ** More facts of binary64 arithmetic *)

Module Binary64Alg.

Import Binary64.
Local Open Scope float_scope.

Lemma Prim2SF_nan : Prim2SF nan = S754_nan.
Proof. reflexivity. Qed.

Lemma opp_involutive (x : float) : - - x = x.
Proof.
  apply Prim2SF_inj. rewrite !opp_spec.
  destruct (Prim2SF x) as [[]|[]| |[] m e]; reflexivity.
Qed.

Lemma is_nan_opp (x : float) : is_nan (- x) = is_nan x.
Proof.
  destruct (is_nan x) eqn:H.
  - apply is_nan_spec. apply is_nan_spec in H. rewrite opp_spec, H. reflexivity.
  - destruct (is_nan (- x)) eqn:H'; [| reflexivity].
    apply is_nan_spec in H'. rewrite opp_spec in H'.
    assert (Prim2SF x = S754_nan).
    { destruct (Prim2SF x) as [[]|[]| |[] m e]; try discriminate. reflexivity. }
    apply is_nan_spec in H0. congruence.
Qed.

Lemma is_zero_opp (x : float) : is_zero (- x) = is_zero x.
Proof.
  unfold is_zero. rewrite !FloatAxioms.eqb_spec, opp_spec.
  destruct (Prim2SF x) as [[]|[]| |[] m e]; reflexivity.
Qed.

Lemma is_infinity_spec (x : float) :
  is_infinity x = true <-> exists s, Prim2SF x = S754_infinity s.
Proof.
  unfold is_infinity. rewrite FloatAxioms.eqb_spec, abs_spec.
  change (Prim2SF infinity) with (S754_infinity false).
  destruct (Prim2SF x) as [[]|[]| |[] m e]; cbn; split;
    try discriminate; eauto; intros [s Hs]; discriminate.
Qed.

(** The finite numbers: the zeros and the numbers with a mantissa. *)
Lemma is_finite_spec (x : float) :
  is_finite x = true <->
  (exists s, Prim2SF x = S754_zero s) \/
  (exists s m e, Prim2SF x = S754_finite s m e).
Proof.
  unfold is_finite. rewrite negb_true_iff, orb_false_iff. split.
  - intros [Hn Hi].
    destruct (Prim2SF x) as [s|s| |s m e] eqn:Hx; eauto.
    + assert (is_infinity x = true) by (apply is_infinity_spec; eauto).
      congruence.
    + apply is_nan_spec in Hx. congruence.
  - intros H. split.
    + destruct (is_nan x) eqn:Hn; [| reflexivity]. apply is_nan_spec in Hn.
      destruct H as [[s H] | (s & m & e & H)]; congruence.
    + destruct (is_infinity x) eqn:Hi; [| reflexivity].
      apply is_infinity_spec in Hi. destruct Hi as [s' Hi].
      destruct H as [[s H] | (s & m & e & H)]; congruence.
Qed.

Lemma is_finite_not_nan (x : float) : is_finite x = true -> is_nan x = false.
Proof.
  unfold is_finite. destruct (is_nan x); [discriminate | reflexivity].
Qed.

(** [x - x] is [+0] for a finite [x]. *)
Lemma sub_diag (x : float) : is_finite x = true -> x - x = 0.
Proof.
  intros H. apply Prim2SF_inj. rewrite sub_spec, Prim2SF_zero.
  apply is_finite_spec in H.
  destruct H as [[s H] | (s & m & e & H)]; rewrite H.
  - destruct s; reflexivity.
  - unfold SF64sub, SFsub. rewrite Z.sub_diag. reflexivity.
Qed.

(** A zero times a finite number is a zero. *)
Lemma mul_zero_l (d a : float) :
  is_zero d = true -> is_finite a = true -> is_zero (d * a) = true.
Proof.
  intros Hd Ha. apply is_zero_spec in Hd. destruct Hd as [s Hd].
  apply is_finite_spec in Ha. apply is_zero_spec. rewrite mul_spec, Hd.
  destruct Ha as [[s' H] | (s' & m & e & H)]; rewrite H; cbn; eauto.
Qed.

Lemma mul_zero_r (d a : float) :
  is_finite d = true -> is_zero a = true -> is_zero (d * a) = true.
Proof.
  intros Hd Ha. apply is_zero_spec in Ha. destruct Ha as [s Ha].
  apply is_finite_spec in Hd. apply is_zero_spec. rewrite mul_spec, Ha.
  destruct Hd as [[s' H] | (s' & m & e & H)]; rewrite H; cbn; eauto.
Qed.

(** Adding a zero gives back a number [===] to the first. *)
Lemma add_zero_like (x e : float) :
  is_nan x = false -> is_zero e = true -> (x + e =? x) = true.
Proof.
  intros Hx He. apply is_zero_spec in He. destruct He as [s He].
  assert (Hn : Prim2SF x <> S754_nan).
  { intros H. apply is_nan_spec in H. congruence. }
  rewrite FloatAxioms.eqb_spec, add_spec, He.
  destruct (Prim2SF x) as [[]|[]| |[] m e'] eqn:E; try congruence;
    destruct s; try reflexivity;
    unfold SF64add, SFadd, SFeqb; rewrite SFcompare_refl by discriminate;
    reflexivity.
Qed.

(** [NaN] is absorbing. *)
Lemma mul_nan_r (x : float) : x * nan = nan.
Proof.
  apply Prim2SF_inj. rewrite mul_spec, Prim2SF_nan.
  destruct (Prim2SF x) as [[]|[]| |[] m e]; reflexivity.
Qed.

Lemma sub_nan_l (x : float) : nan - x = nan.
Proof.
  apply Prim2SF_inj. rewrite sub_spec, Prim2SF_nan. reflexivity.
Qed.

Lemma sub_nan_r (x : float) : x - nan = nan.
Proof.
  apply Prim2SF_inj. rewrite sub_spec, Prim2SF_nan.
  destruct (Prim2SF x) as [[]|[]| |[] m e]; reflexivity.
Qed.

Lemma mul_nan_l (x : float) : nan * x = nan.
Proof.
  apply Prim2SF_inj. rewrite mul_spec, Prim2SF_nan. reflexivity.
Qed.

Lemma add_nan_r (x : float) : x + nan = nan.
Proof.
  apply Prim2SF_inj. rewrite add_spec, Prim2SF_nan.
  destruct (Prim2SF x) as [[]|[]| |[] m e]; reflexivity.
Qed.

(** Division by zero gives [NaN] or an infinity. *)
Lemma div_zero_not_finite (x : float) : is_finite (x / 0) = false.
Proof.
  destruct (is_finite (x / 0)) eqn:H; [| reflexivity].
  apply is_finite_spec in H. rewrite div_spec, Prim2SF_zero in H.
  destruct (Prim2SF x) as [[]|[]| |[] m e]; cbn in H;
    destruct H as [[s H] | (s & m' & e' & H)]; discriminate.
Qed.

(** Multiplication commutes. *)
Lemma mul_comm (x y : float) : x * y = y * x.
Proof.
  apply Prim2SF_inj. rewrite !mul_spec.
  destruct (Prim2SF x) as [[]|[]| |sx mx ex],
           (Prim2SF y) as [[]|[]| |sy my ey]; try reflexivity;
    try (destruct sx; reflexivity); try (destruct sy; reflexivity).
  unfold SF64mul, SFmul. rewrite xorb_comm, Pos.mul_comm, Z.add_comm.
  reflexivity.
Qed.

(** *** Order *)

Lemma SFcompare_antisym (x y : spec_float) :
  SFcompare y x = option_map CompOpp (SFcompare x y).
Proof.
  destruct x as [[]|[]| |[] mx ex], y as [[]|[]| |[] my ey]; try reflexivity;
    cbn [SFcompare option_map]; rewrite (Z.compare_antisym ex ey);
    destruct (ex ?= ey)%Z; cbn [CompOpp]; try reflexivity;
    fold (Pos.compare mx my); fold (Pos.compare my mx);
    rewrite (Pos.compare_antisym mx my);
    destruct (mx ?= my)%positive; reflexivity.
Qed.

Lemma SFcompare_some (x y : spec_float) :
  x <> S754_nan -> y <> S754_nan -> exists c, SFcompare x y = Some c.
Proof.
  destruct x as [[]|[]| |[] mx ex], y as [[]|[]| |[] my ey]; cbn;
    intros; try congruence; eauto.
Qed.

Lemma not_nan_spec (x : float) : is_nan x = false -> Prim2SF x <> S754_nan.
Proof. intros H E. apply is_nan_spec in E. congruence. Qed.

(** Two numbers that are not [NaN] are comparable. *)
Lemma ltb_false_leb (x y : float) :
  is_nan x = false -> is_nan y = false ->
  (x <? y) = false -> (y <=? x) = true.
Proof.
  intros Hx Hy. rewrite FloatAxioms.ltb_spec, FloatAxioms.leb_spec.
  unfold SFltb, SFleb. rewrite (SFcompare_antisym (Prim2SF x) (Prim2SF y)).
  destruct (SFcompare_some _ _ (not_nan_spec x Hx) (not_nan_spec y Hy))
    as [c ->].
  destruct c; cbn; congruence.
Qed.

Lemma ltb_leb (x y : float) : (x <? y) = true -> (x <=? y) = true.
Proof.
  rewrite FloatAxioms.ltb_spec, FloatAxioms.leb_spec. unfold SFltb, SFleb.
  destruct (SFcompare _ _) as [[]|]; congruence.
Qed.

Lemma ltb_not_leb (x y : float) : (x <? y) = true -> (y <=? x) = false.
Proof.
  rewrite FloatAxioms.ltb_spec, FloatAxioms.leb_spec. unfold SFltb, SFleb.
  rewrite (SFcompare_antisym (Prim2SF x) (Prim2SF y)).
  destruct (SFcompare _ _) as [[]|]; cbn; congruence.
Qed.

Lemma leb_refl (x : float) : is_nan x = false -> (x <=? x) = true.
Proof.
  intros H. rewrite FloatAxioms.leb_spec. unfold SFleb.
  rewrite SFcompare_refl by (apply not_nan_spec, H). reflexivity.
Qed.

(** A comparison does not see the sign of a zero on its left. *)
Lemma leb_zero_l (x y : float) :
  is_zero x = true -> (0 <=? y) = (x <=? y).
Proof.
  intros H. apply is_zero_spec in H. destruct H as [s H].
  rewrite !FloatAxioms.leb_spec, Prim2SF_zero, H.
  destruct (Prim2SF y) as [[]|[]| |[] m e]; reflexivity.
Qed.

(** *** Squares of differences *)

Lemma SFmul_opp_opp (x : spec_float) :
  SF64mul (SFopp x) (SFopp x) = SF64mul x x.
Proof. destruct x as [[]|[]| |[] m e]; reflexivity. Qed.

Lemma binary_round_aux_opp (s : bool) (m e : Z) (l : location) :
  binary_round_aux prec emax (negb s) m e l
  = SFopp (binary_round_aux prec emax s m e l).
Proof.
  unfold binary_round_aux.
  destruct (shr_fexp prec emax m e l) as [mrs e'].
  destruct (shr_fexp prec emax _ e' loc_Exact) as [mrs' e''].
  destruct (shr_m mrs'); try reflexivity.
  destruct (e'' <=? emax - prec)%Z; reflexivity.
Qed.

Lemma binary_normalize_opp (n e : Z) :
  n <> 0%Z ->
  binary_normalize prec emax (- n) e false
  = SFopp (binary_normalize prec emax n e false).
Proof.
  intros Hn. destruct n as [|p|p]; [congruence | |].
  - change (- Z.pos p)%Z with (Z.neg p).
    unfold binary_normalize, binary_round.
    destruct (shl_align _ _ _) as [mz ez].
    apply (binary_round_aux_opp false).
  - change (- Z.neg p)%Z with (Z.pos p).
    unfold binary_normalize, binary_round.
    destruct (shl_align _ _ _) as [mz ez].
    rewrite (binary_round_aux_opp false).
    destruct (binary_round_aux prec emax false (Z.pos mz) ez loc_Exact)
      as [[]|[]| |[] m' e']; reflexivity.
Qed.

Lemma SFsub_swap_sq (x y : spec_float) :
  SF64mul (SF64sub x y) (SF64sub x y) = SF64mul (SF64sub y x) (SF64sub y x).
Proof.
  destruct x as [[]|[]| |sx mx ex], y as [[]|[]| |sy my ey];
    try reflexivity; try (destruct sx; reflexivity);
    try (destruct sy; reflexivity).
  unfold SF64sub, SFsub. rewrite (Z.min_comm ey ex).
  set (ez := Z.min ex ey).
  set (a := cond_Zopp sx (Z.pos (fst (shl_align mx ex ez)))).
  set (b := cond_Zopp sy (Z.pos (fst (shl_align my ey ez)))).
  destruct (Z.eq_dec (a - b)%Z 0%Z) as [H0 | H0].
  - replace (b - a)%Z with 0%Z by lia. rewrite H0. reflexivity.
  - replace (b - a)%Z with (- (a - b))%Z by lia.
    rewrite (binary_normalize_opp _ _ H0). symmetry. apply SFmul_opp_opp.
Qed.

(** [(a - b) * (a - b)] is [(b - a) * (b - a)]. *)
Lemma sq_sub_swap (a b : float) : (a - b) * (a - b) = (b - a) * (b - a).
Proof.
  apply Prim2SF_inj. rewrite !mul_spec, !sub_spec. apply SFsub_swap_sq.
Qed.

(** The square of a zero is [+0]. *)
Lemma sq_zero (d : float) : is_zero d = true -> d * d = 0.
Proof.
  intros H. apply is_zero_spec in H. destruct H as [s H].
  apply Prim2SF_inj. rewrite mul_spec, H, Prim2SF_zero.
  destruct s; reflexivity.
Qed.

(** Subtracting a zero of either sign: the square of the difference
    does not depend on the sign. *)
Lemma sq_sub_zero (a b : float) :
  is_zero b = true -> (a - b) * (a - b) = (a - 0) * (a - 0).
Proof.
  intros H. apply is_zero_spec in H. destruct H as [s H].
  apply Prim2SF_inj. rewrite !mul_spec, !sub_spec, H, Prim2SF_zero.
  destruct (Prim2SF a) as [[]|[]| |[] m e], s; reflexivity.
Qed.

(** A difference that is finite has operands that are not [NaN]. *)
Lemma sub_finite_not_nan (a b : float) :
  is_finite (a - b) = true -> is_nan a = false /\ is_nan b = false.
Proof.
  intros H. apply is_finite_not_nan in H.
  split.
  - destruct (is_nan a) eqn:Ha; [| reflexivity]. apply is_nan_spec in Ha.
    assert (Hs : Prim2SF (a - b) = S754_nan)
      by (rewrite sub_spec, Ha; reflexivity).
    apply is_nan_spec in Hs. congruence.
  - destruct (is_nan b) eqn:Hb; [| reflexivity]. apply is_nan_spec in Hb.
    assert (Hs : Prim2SF (a - b) = S754_nan).
    { rewrite sub_spec, Hb.
      destruct (Prim2SF a) as [[]|[]| |[] m e]; reflexivity. }
    apply is_nan_spec in Hs. congruence.
Qed.

(** A comparison does not see the sign of a zero on its right. *)
Lemma leb_zero_r (x y : float) :
  is_zero y = true -> (x <=? 0) = (x <=? y).
Proof.
  intros H. apply is_zero_spec in H. destruct H as [s H].
  rewrite !FloatAxioms.leb_spec, Prim2SF_zero, H.
  destruct (Prim2SF x) as [[]|[]| |[] m e], s; reflexivity.
Qed.

(** A zero is [===] to zeros only. *)
Lemma eqb_zero_l (x y : float) :
  is_zero x = true -> (x =? y) = is_zero y.
Proof.
  intros H. apply is_zero_spec in H. destruct H as [s H].
  unfold is_zero. rewrite !FloatAxioms.eqb_spec, H.
  change (Prim2SF zero) with (S754_zero false).
  destruct (Prim2SF y) as [[]|[]| |[] m e]; reflexivity.
Qed.

(** What is not finite is [NaN] or an infinity. *)
Lemma not_finite_cases (x : float) :
  is_finite x = false -> is_nan x = true \/ is_infinity x = true.
Proof.
  unfold is_finite.
  destruct (is_nan x), (is_infinity x); cbn; intros H;
    try discriminate; auto.
Qed.

Lemma is_infinity_not_zero (x : float) :
  is_infinity x = true -> is_nan x = false /\ is_zero x = false.
Proof.
  intros H. apply is_infinity_spec in H. destruct H as [s H]. split.
  - destruct (is_nan x) eqn:Hn; [| reflexivity].
    apply is_nan_spec in Hn. congruence.
  - destruct (is_zero x) eqn:Hz; [| reflexivity].
    apply is_zero_spec in Hz. destruct Hz as [s' Hz]. congruence.
Qed.

End Binary64Alg.

(** ** Lemmas on the return value of a callback *)

Lemma has_key_true r k :
  has_key r k = true <-> exists n, returns_key r k n.
Proof.
  unfold has_key, returns_key. destruct r as [|o].
  - split; [discriminate | intros (n & o & Hr & _); discriminate].
  - rewrite bool_decide_eq_true. split.
    + intros [n Hn]. exists n, o. auto.
    + intros (n & o' & Hr & Hn). injection Hr as <-. eauto.
Qed.

Lemma has_key_false r k :
  has_key r k = false <-> lacks_key r k.
Proof.
  unfold has_key, lacks_key. destruct r as [|o].
  - split; auto.
  - rewrite bool_decide_eq_false, <- eq_None_not_Some. split.
    + intros Hn. right. exists o. auto.
    + intros [Hr | (o' & Hr & Hn)]; [discriminate | injection Hr as <-; auto].
Qed.

Lemma get_key_returns r k n :
  returns_key r k n -> get_key r k = n.
Proof.
  intros (o & -> & Hn). unfold get_key. rewrite Hn. reflexivity.
Qed.

Lemma returns_lacks r k n :
  returns_key r k n -> lacks_key r k -> False.
Proof.
  intros (o & -> & Hn) [Hr | (o' & Hr & Hn')]; [discriminate |].
  injection Hr as <-. congruence.
Qed.

(** Unfolding of the monad's operations on a goal. *)
Ltac run_M :=
  cbv [mbind M_bind mret M_ret get_this modify_this
       set__x set__y set__z set_onUpdate set_scope throw];
  cbn [this calls pool _x _y _z onUpdate scope fst snd].

(** ** The batch write *)

Lemma _set_run (w : world) (f : callback) (x y z : number) :
  onUpdate (this w) = Some f ->
  let o := this w in
  let r := f (scope o) x y z (_x o) (_y o) (_z o) in
  _set x y z w =
    (Ok RefThis,
     mk_world
       (if has_key r "x" && has_key r "y" && has_key r "z"
        then mk_ov (get_key r "x") (get_key r "y") (get_key r "z")
                   (Some f) (scope o)
        else mk_ov x y (z ||| 0%float) (Some f) (scope o))
       (calls w ++ [mk_call f (scope o) (x, y, z) (_x o, _y o, _z o)])
       (pool w)).
Proof.
  intros Hf o r. subst o r. unfold _set, call_onUpdate. run_M.
  rewrite Hf. run_M.
  destruct (has_key _ "x" && has_key _ "y" && has_key _ "z");
    run_M; rewrite ?Hf; reflexivity.
Qed.

Lemma exec_is__set (E : Env) (m : mutation) (w : world) :
  exists x y z : number, exec E m w = _set x y z w.
Proof.
  destruct m; cbv [exec add sub scale scaleV div abs clampSelf minV maxV
                   floorSelf ceilSelf negateSelf copy perp rotate cross lerp];
    run_M; try (destruct v as [p|]); do 3 eexists; reflexivity.
Qed.

Lemma _set_post (w : world) (f : callback) (x y z : number) :
  onUpdate (this w) = Some f ->
  let o := this w in
  let r := f (scope o) x y z (_x o) (_y o) (_z o) in
  exists w',
    _set x y z w = (Ok RefThis, w') /\
    calls w' =
      (calls w ++ [mk_call f (scope o) (x, y, z) (_x o, _y o, _z o)])%list /\
    (forall a b c,
        returns_key r "x" a -> returns_key r "y" b -> returns_key r "z" c ->
        coords (this w') = (a, b, c)) /\
    (lacks_key r "x" \/ lacks_key r "y" \/ lacks_key r "z" ->
     coords (this w') = (x, y, if truthy z then z else 0%float)) /\
    onUpdate (this w') = Some f /\
    scope (this w') = scope o /\
    pool w' = pool w.
Proof.
  intros Hf o r. eexists. split; [apply (_set_run w f x y z Hf) |].
  fold o. fold r. cbn [calls pool this].
  split; [reflexivity |].
  destruct (has_key r "x") eqn:Hx, (has_key r "y") eqn:Hy,
           (has_key r "z") eqn:Hz; cbn [andb coords _x _y _z onUpdate scope];
    repeat split; try reflexivity;
    try (intros a b c Ha Hb Hc;
         try (rewrite (get_key_returns _ _ _ Ha), (get_key_returns _ _ _ Hb),
                (get_key_returns _ _ _ Hc); reflexivity);
         apply has_key_false in Hx || apply has_key_false in Hy
         || apply has_key_false in Hz;
         exfalso; eauto using returns_lacks).
  intros [H | [H | H]]; apply has_key_false in H; congruence.
Qed.

(** C1, as amended.  Every batch mutation is one call of [_set] on some
    attempted coordinates [(x, y, z)].  The bound callback is invoked
    exactly once, with [(x, y, z)] followed by the old coordinates.  If its
    return is an object that has the three keys [x], [y] and [z], the three
    components are taken from it.  Otherwise (nothing returned, or a key
    missing) [x] and [y] are committed as attempted and [z] is committed as
    [z || 0]: [z] itself unless it is [NaN] or a zero, in which case [0]. *)
Theorem batch_write_commits (E : Env) (m : mutation) (w : world)
    (f : callback) :
  onUpdate (this w) = Some f ->
  let o := this w in
  exists (x y z : number) (w' : world),
    exec E m w = _set x y z w /\
    _set x y z w = (Ok RefThis, w') /\
    calls w' =
      (calls w ++ [mk_call f (scope o) (x, y, z) (_x o, _y o, _z o)])%list /\
    (let r := f (scope o) x y z (_x o) (_y o) (_z o) in
     (forall a b c,
         returns_key r "x" a -> returns_key r "y" b -> returns_key r "z" c ->
         coords (this w') = (a, b, c)) /\
     (lacks_key r "x" \/ lacks_key r "y" \/ lacks_key r "z" ->
      coords (this w') = (x, y, if truthy z then z else 0%float))) /\
    onUpdate (this w') = Some f /\
    scope (this w') = scope o /\
    pool w' = pool w.
Proof.
  intros Hf o.
  destruct (exec_is__set E m w) as (x & y & z & Hm).
  destruct (_set_post w f x y z Hf) as (w' & Hrun & Hc & Hall & Hpart & Hrest).
  exists x, y, z, w'. cbv zeta. tauto.
Qed.

(** The test of the suite: [a.add(new Vector3d(10, 10, 10))] on
    [a = (10, 100, 20)] fires the callback once, with the new values
    [(20, 110, 30)] and the old values [(10, 100, 20)], and afterwards
    [a.y] is the old [y] plus ten. *)
Lemma batch_write_commits_witness :
  onUpdate (this (start (mk_ov 10 100 20 (Some cb_silent) ScopeNull)))
    = Some cb_silent /\
  exists w',
    add (Vector3d 10 10 10) (start (mk_ov 10 100 20 (Some cb_silent) ScopeNull))
      = (Ok RefThis, w') /\
    calls w' = [mk_call cb_silent ScopeNull (20, 110, 30) (10, 100, 20)] /\
    _y (this w') = 100 + 10.
Proof.
  split; [reflexivity |].
  destruct (batch_write_commits env0 (MAdd (Vector3d 10 10 10))
              (start (mk_ov 10 100 20 (Some cb_silent) ScopeNull))
              cb_silent eq_refl)
    as (x & y & z & w' & Hm & Hrun & _).
  exists w'. split; [rewrite <- Hrun; exact Hm |].
  rewrite <- Hm in Hrun. vm_compute in Hrun.
  injection Hrun as <-. split; vm_compute; reflexivity.
Defined.

(** A return with the three keys replaces the three coordinates. *)
Example full_return_overrides :
  negateSelf (start (mk_ov 1 2 3 (Some cb_ten) ScopeNull)) =
    (Ok RefThis,
     mk_world (mk_ov 10 10 10 (Some cb_ten) ScopeNull)
              [mk_call cb_ten ScopeNull (-1, -2, -3) (1, 2, 3)] []).
Proof. vm_compute. reflexivity. Qed.

(** A return with the key [x] alone is ignored by the batch write. *)
Example partial_return_ignored :
  sub (Vector3d 1 1 1) (start (mk_ov 1 2 3 (Some cb_only_x) ScopeNull)) =
    (Ok RefThis,
     mk_world (mk_ov 0 1 2 (Some cb_only_x) ScopeNull)
              [mk_call cb_only_x ScopeNull (0, 1, 2) (1, 2, 3)] []).
Proof. vm_compute. reflexivity. Qed.

(** C1, as stated, fails on [(1, 2, 0).div(0)]: the callback returns
    nothing, the attempted coordinates are [(Infinity, Infinity, NaN)], and
    the committed [z] is [0], not the attempted [NaN]. *)
Lemma div_by_zero_z_not_verbatim :
  let a := mk_ov 1 2 0 (Some cb_silent) ScopeNull in
  exists w',
    div 0 (start a) = (Ok RefThis, w') /\
    calls w' = [mk_call cb_silent ScopeNull (infinity, infinity, nan) (1, 2, 0)%float] /\
    cb_silent ScopeNull infinity infinity nan 1 2 0 = RetUndefined /\
    _z (this w') = 0%float /\
    _z (this w') <> nan.
Proof.
  eexists. repeat split; try (vm_compute; reflexivity).
  cbn. intros H. apply (f_equal PrimFloat.is_nan) in H.
  vm_compute in H. discriminate.
Qed.

(** ** The single-coordinate setters *)

Lemma committed_axis_intro r k v :
  committed_axis r k v (if has_key r k then get_key r k else v).
Proof.
  split.
  - intros n Hn. assert (Hk : has_key r k = true) by (apply has_key_true; eauto).
    rewrite Hk. apply get_key_returns, Hn.
  - intros Hl. apply has_key_false in Hl. rewrite Hl. reflexivity.
Qed.

Lemma set_x_run (w : world) (f : callback) (v : number) :
  onUpdate (this w) = Some f ->
  let o := this w in
  let r := f (scope o) v (_y o) (_z o) (_x o) (_y o) (_z o) in
  set_x v w =
    (Ok tt,
     mk_world
       (mk_ov (if has_key r "x" then get_key r "x" else v) (_y o) (_z o)
              (Some f) (scope o))
       (calls w ++ [mk_call f (scope o) (v, _y o, _z o) (_x o, _y o, _z o)])
       (pool w)).
Proof.
  intros Hf o r. subst o r. unfold set_x, call_onUpdate. run_M.
  rewrite Hf. run_M.
  destruct (has_key _ "x"); run_M; rewrite ?Hf; reflexivity.
Qed.

Lemma set_y_run (w : world) (f : callback) (v : number) :
  onUpdate (this w) = Some f ->
  let o := this w in
  let r := f (scope o) (_x o) v (_z o) (_x o) (_y o) (_z o) in
  set_y v w =
    (Ok tt,
     mk_world
       (mk_ov (_x o) (if has_key r "y" then get_key r "y" else v) (_z o)
              (Some f) (scope o))
       (calls w ++ [mk_call f (scope o) (_x o, v, _z o) (_x o, _y o, _z o)])
       (pool w)).
Proof.
  intros Hf o r. subst o r. unfold set_y, call_onUpdate. run_M.
  rewrite Hf. run_M.
  destruct (has_key _ "y"); run_M; rewrite ?Hf; reflexivity.
Qed.

Lemma set_z_run (w : world) (f : callback) (v : number) :
  onUpdate (this w) = Some f ->
  let o := this w in
  let r := f (scope o) (_x o) (_y o) v (_x o) (_y o) (_z o) in
  set_z v w =
    (Ok tt,
     mk_world
       (mk_ov (_x o) (_y o) (if has_key r "z" then get_key r "z" else v)
              (Some f) (scope o))
       (calls w ++ [mk_call f (scope o) (_x o, _y o, v) (_x o, _y o, _z o)])
       (pool w)).
Proof.
  intros Hf o r. subst o r. unfold set_z, call_onUpdate. run_M.
  rewrite Hf. run_M.
  destruct (has_key _ "z"); run_M; rewrite ?Hf; reflexivity.
Qed.

(** C2.  The write [a.x = v] invokes the bound callback exactly once, with
    [(v, a.y, a.z, oldX, oldY, oldZ)]; the committed [x] is the value under
    the key [x] of the returned object when there is one, and [v] otherwise;
    the stored [y] and [z] (and the binding) are as before.  The setters of
    [y] and [z] do the same on their axis. *)
Theorem setter_commits_one_axis (w : world) (f : callback) (v : number) :
  onUpdate (this w) = Some f ->
  let o := this w in
  (exists w',
      set_x v w = (Ok tt, w') /\
      calls w' =
        (calls w ++ [mk_call f (scope o) (v, _y o, _z o) (_x o, _y o, _z o)])%list /\
      committed_axis (f (scope o) v (_y o) (_z o) (_x o) (_y o) (_z o)) "x"
        v (_x (this w')) /\
      _y (this w') = _y o /\ _z (this w') = _z o /\
      onUpdate (this w') = Some f /\ scope (this w') = scope o) /\
  (exists w',
      set_y v w = (Ok tt, w') /\
      calls w' =
        (calls w ++ [mk_call f (scope o) (_x o, v, _z o) (_x o, _y o, _z o)])%list /\
      committed_axis (f (scope o) (_x o) v (_z o) (_x o) (_y o) (_z o)) "y"
        v (_y (this w')) /\
      _x (this w') = _x o /\ _z (this w') = _z o /\
      onUpdate (this w') = Some f /\ scope (this w') = scope o) /\
  (exists w',
      set_z v w = (Ok tt, w') /\
      calls w' =
        (calls w ++ [mk_call f (scope o) (_x o, _y o, v) (_x o, _y o, _z o)])%list /\
      committed_axis (f (scope o) (_x o) (_y o) v (_x o) (_y o) (_z o)) "z"
        v (_z (this w')) /\
      _x (this w') = _x o /\ _y (this w') = _y o /\
      onUpdate (this w') = Some f /\ scope (this w') = scope o).
Proof.
  intros Hf o. repeat split.
  - eexists. split; [apply (set_x_run w f v Hf) |].
    cbn [this calls _x _y _z onUpdate scope]. fold o.
    repeat split; try reflexivity; apply committed_axis_intro.
  - eexists. split; [apply (set_y_run w f v Hf) |].
    cbn [this calls _x _y _z onUpdate scope]. fold o.
    repeat split; try reflexivity; apply committed_axis_intro.
  - eexists. split; [apply (set_z_run w f v Hf) |].
    cbn [this calls _x _y _z onUpdate scope]. fold o.
    repeat split; try reflexivity; apply committed_axis_intro.
Qed.

Lemma setter_commits_one_axis_witness :
  onUpdate (this (start (mk_ov 1 2 3 (Some cb_only_x) (ScopeObject 4))))
    = Some cb_only_x /\
  exists w',
    set_x 5 (start (mk_ov 1 2 3 (Some cb_only_x) (ScopeObject 4)))
      = (Ok tt, w') /\
    calls w' = [mk_call cb_only_x (ScopeObject 4) (5, 2, 3) (1, 2, 3)] /\
    coords (this w') = (7, 2, 3).
Proof.
  split; [reflexivity |].
  destruct (setter_commits_one_axis
              (start (mk_ov 1 2 3 (Some cb_only_x) (ScopeObject 4)))
              cb_only_x 5 eq_refl)
    as ((w' & Hrun & Hc & [Hk _] & Hy & Hz & _) & _).
  exists w'. split; [exact Hrun |]. split; [exact Hc |].
  unfold coords. rewrite Hy, Hz.
  rewrite (Hk 7); [reflexivity |].
  eexists. split; [reflexivity |]. vm_compute. reflexivity.
Defined.

(** ** Muted writes, reset and construction *)

Lemma setMuted_run (x y : number) (z : option number) (w : world) :
  setMuted x y z w =
    (Ok RefThis,
     mk_world (mk_ov x y (z ?|| 0) (onUpdate (this w)) (scope (this w)))
              (calls w) (pool w)).
Proof. reflexivity. Qed.

Lemma onResetEvent_run (x y z : option number) (s : option settings)
    (w : world) :
  let o := this w in
  let x' := default_arg x 0 in
  let y' := default_arg y 0 in
  let z' := default_arg z 0 ||| 0 in
  onResetEvent x y z s w =
    match s with
    | None =>
        (Ok RefThis,
         mk_world (mk_ov x' y' z' (onUpdate o) (scope o)) (calls w) (pool w))
    | Some (mk_settings (JFunction g) sc) =>
        (Ok RefThis,
         mk_world (mk_ov x' y' z' (Some g) (scope_or_null sc))
                  (calls w) (pool w))
    | Some _ =>
        (Throw (Error "invalid `onUpdate` callback"),
         mk_world (mk_ov x' y' z' (onUpdate o) (scope o)) (calls w) (pool w))
    end.
Proof. destruct s as [[[] sc]|]; reflexivity. Qed.

(** C7.  [setMuted] and [onResetEvent] write the coordinates ([z] as
    [z || 0]) and record no invocation of any callback, and neither does
    construction.  Without settings [onResetEvent] keeps the callback and
    the scope; with settings whose [onUpdate] is a function it binds that
    function and the scope given ([null] when there is none); with settings
    whose [onUpdate] is not a function it throws after the coordinates are
    written, and the callback and scope are the former ones. *)
Theorem muted_paths_do_not_notify (w : world) (x y : number)
    (z : option number) (ox oy oz : option number) (s : option settings) :
  let o := this w in
  (exists w',
      setMuted x y z w = (Ok RefThis, w') /\
      calls w' = calls w /\
      coords (this w') = (x, y, z ?|| 0) /\
      onUpdate (this w') = onUpdate o /\ scope (this w') = scope o) /\
  (exists r w',
      onResetEvent ox oy oz s w = (r, w') /\
      calls w' = calls w /\
      coords (this w') =
        (default_arg ox 0, default_arg oy 0, default_arg oz 0 ||| 0) /\
      match s with
      | None =>
          r = Ok RefThis /\
          onUpdate (this w') = onUpdate o /\ scope (this w') = scope o
      | Some (mk_settings (JFunction g) sc) =>
          r = Ok RefThis /\
          onUpdate (this w') = Some g /\ scope (this w') = scope_or_null sc
      | Some _ =>
          r = Throw (Error "invalid `onUpdate` callback") /\
          onUpdate (this w') = onUpdate o /\ scope (this w') = scope o
      end) /\
  calls (snd (new_ObservableVector3d ox oy oz s w)) = calls w.
Proof.
  intros o. split; [| split].
  - eexists. split; [apply setMuted_run |]. repeat split.
  - destruct s as [[[] sc]|]; do 2 eexists;
      (split; [rewrite onResetEvent_run; reflexivity | repeat split]).
  - destruct s as [[[] sc]|]; reflexivity.
Qed.

(** Resetting a pooled vector under a callback that would veto every
    write: nothing is recorded and the coordinates are the ones given. *)
Example reset_is_silent :
  let a := mk_ov 1 2 3 (Some cb_ten) (ScopeObject 1) in
  onResetEvent (Some 4) None None None (start a)
  = (Ok RefThis, start (mk_ov 4 0 0 (Some cb_ten) (ScopeObject 1))).
Proof. reflexivity. Qed.

(** ** [abs] *)

Lemma cb_silent_notifies_only : notifies_only cb_silent.
Proof. intros sc a b c a' b' c'. left. left. reflexivity. Qed.

(** C9.  [abs()] is the batch write of [(x < 0 ? -x : x, y < 0 ? -y : y, z)]:
    the third argument is the current [z] whatever its sign, because the
    test reads [_Z], which is [undefined]; the first two are never below
    zero, and are [Math.abs] of [x] and [y] up to [===]. *)
Theorem abs_keeps_z (w : world) :
  let o := this w in
  let ax := if _x o <? 0 then - _x o else _x o in
  let ay := if _y o <? 0 then - _y o else _y o in
  abs w = _set ax ay (_z o) w /\
  prop_lt (_Z o) 0 = false /\
  (ax <? 0) = false /\
  (ay <? 0) = false /\
  (is_nan (_x o) = false -> (ax === PrimFloat.abs (_x o)) = true) /\
  (is_nan (_y o) = false -> (ay === PrimFloat.abs (_y o)) = true).
Proof.
  intros o ax ay. repeat split.
  - apply Binary64.abs_expr_not_negative.
  - apply Binary64.abs_expr_not_negative.
  - apply Binary64.abs_expr_strict_eq.
  - apply Binary64.abs_expr_strict_eq.
Qed.

(** [abs()] on [(-1, -2, -3)]: the callback sees [(1, 2, -3)] and the
    stored [z] is still [-3]. *)
Example abs_negative_z :
  let a := mk_ov (-1) (-2) (-3) (Some cb_silent) ScopeNull in
  abs (start a) =
    (Ok RefThis,
     mk_world (mk_ov 1 2 (-3) (Some cb_silent) ScopeNull)
              [mk_call cb_silent ScopeNull (1, 2, -3) (-1, -2, -3)] []).
Proof. vm_compute. reflexivity. Qed.

(** ** A missing [z] on the argument *)

Lemma _set_z_kept (w : world) (f : callback) (x y z : number) :
  onUpdate (this w) = Some f ->
  notifies_only f ->
  (z === _z (this w)) = true ->
  z_kept (_set x y z) w.
Proof.
  intros Hf Hn Hz.
  destruct (_set_post w f x y z Hf) as (w' & Hrun & _ & _ & Hpart & _).
  exists w'. split; [exact Hrun |].
  specialize (Hpart (Hn _ _ _ _ _ _ _)).
  injection Hpart as _ _ ->. apply Binary64.or_zero_eqb, Hz.
Qed.

(** C5.  On an argument without [z], [add] and [sub] do what they do on
    the same argument with [z = 0], and [scaleV] and [dot] what they do
    with [z = 1]: the [z] attempted is [this.z + 0], [this.z - 0] and
    [this.z * 1], and the third term of [dot] is [this.z * 1].  In
    binary64 [z - 0] and [z * 1] are [z], and [z + 0 === z] unless [z] is
    [NaN]; so under a callback that leaves batch writes as attempted, and
    for a [z] that is not [NaN], the three mutations leave the stored [z]
    [===] to what it was. *)
Theorem missing_z_is_zero_or_one (w : world) (vx vy : number) :
  let o := this w in
  let v := Vector2d vx vy in
  (add v w = add (Vector3d vx vy 0) w /\
   add v w = _set (_x o + vx) (_y o + vy) (_z o + 0) w) /\
  (sub v w = sub (Vector3d vx vy 0) w /\
   sub v w = _set (_x o - vx) (_y o - vy) (_z o - 0) w) /\
  (scaleV v w = scaleV (Vector3d vx vy 1) w /\
   scaleV v w = _set (_x o * vx) (_y o * vy) (_z o * 1) w) /\
  (dot o v = dot o (Vector3d vx vy 1) /\
   dot o v = _x o * vx + _y o * vy + _z o * 1) /\
  (_z o - 0 = _z o /\
   _z o * 1 = _z o /\
   (_z o + 0 === _z o) = negb (is_nan (_z o))) /\
  (forall f,
      onUpdate o = Some f -> notifies_only f -> is_nan (_z o) = false ->
      z_kept (add v) w /\ z_kept (sub v) w /\ z_kept (scaleV v) w).
Proof.
  intros o v.
  split; [split; reflexivity |].
  split; [split; reflexivity |].
  split; [split; reflexivity |].
  split; [split; reflexivity |].
  split.
  - split; [apply Binary64.sub_zero |].
    split; [apply Binary64.mul_one | apply Binary64.add_zero_strict_eq].
  - intros f Hf Hn Hz. repeat split.
    + apply (_set_z_kept w f _ _ _ Hf Hn). unfold strict_eq. fold o.
      rewrite Binary64.add_zero_strict_eq, Hz. reflexivity.
    + apply (_set_z_kept w f _ _ _ Hf Hn). unfold strict_eq. fold o.
      cbn [vz v Vector2d prop_or_else]. rewrite Binary64.sub_zero.
      rewrite Binary64.eqb_refl_not_nan, Hz. reflexivity.
    + apply (_set_z_kept w f _ _ _ Hf Hn). unfold strict_eq. fold o.
      cbn [vz v Vector2d prop_or_else]. rewrite Binary64.mul_one.
      rewrite Binary64.eqb_refl_not_nan, Hz. reflexivity.
Qed.

(** The asymmetry on [(1, 2, 3)] and the 2D argument [(5, 7)]. *)
Example missing_z_asymmetry :
  let a := mk_ov 1 2 3 (Some cb_silent) ScopeNull in
  let v := Vector2d 5 7 in
  coords (this (snd (add v (start a)))) = (6, 9, 3) /\
  coords (this (snd (sub v (start a)))) = (-4, -5, 3) /\
  coords (this (snd (scaleV v (start a)))) = (5, 14, 3) /\
  dot a v = 22.
Proof. repeat split; vm_compute; reflexivity. Qed.

(** ** A [z] of zero on the argument *)

(** C10.  An argument whose [z] is [=== 0] is treated by [dot] and
    [scaleV] as an argument without [z]: the third term of [dot] is
    [this.z * 1], which is [this.z], and [scaleV] attempts [this.z * 1],
    so that under a callback that leaves batch writes as attempted the
    stored [z] stays [===] to what it was (for a [z] that is not [NaN]). *)
Theorem zero_z_is_missing_z (w : world) (vx vy vz0 : number) :
  (vz0 === 0) = true ->
  let o := this w in
  let v := Vector3d vx vy vz0 in
  (dot o v = dot o (Vector2d vx vy) /\
   dot o v = _x o * vx + _y o * vy + _z o * 1) /\
  (scaleV v w = scaleV (Vector2d vx vy) w /\
   scaleV v w = _set (_x o * vx) (_y o * vy) (_z o * 1) w) /\
  _z o * 1 = _z o /\
  (forall f,
      onUpdate o = Some f -> notifies_only f -> is_nan (_z o) = false ->
      z_kept (scaleV v) w).
Proof.
  intros H0 o v.
  assert (Hv : vz v ?|| 1 = 1).
  { cbn [vz v Vector3d prop_or_else]. unfold or_else, truthy.
    change (vz0 === 0) with (is_zero vz0) in H0. rewrite H0, orb_true_r.
    reflexivity. }
  assert (Hs : scaleV v w = _set (_x o * vx) (_y o * vy) (_z o * 1) w).
  { unfold scaleV. run_M. fold o. rewrite Hv. reflexivity. }
  split; [| split; [| split]].
  - unfold dot. rewrite Hv. split; reflexivity.
  - split; [rewrite Hs; reflexivity | exact Hs].
  - apply Binary64.mul_one.
  - intros f Hf Hn Hz. unfold z_kept. rewrite Hs.
    apply (_set_z_kept w f _ _ _ Hf Hn). unfold strict_eq. fold o.
    rewrite Binary64.mul_one, Binary64.eqb_refl_not_nan, Hz. reflexivity.
Qed.

Lemma zero_z_is_missing_z_witness :
  (0 === 0) = true /\
  dot (mk_ov 1 2 3 (Some cb_silent) ScopeNull) (Vector3d 1 1 0) = 6 /\
  coords (this (snd (scaleV (Vector3d 2 2 0)
                       (start (mk_ov 1 2 3 (Some cb_silent) ScopeNull)))))
  = (2, 4, 3).
Proof.
  split; [reflexivity |].
  destruct (zero_z_is_missing_z
              (start (mk_ov 1 2 3 (Some cb_silent) ScopeNull)) 1 1 0 eq_refl)
    as ((_ & Hd) & _).
  destruct (zero_z_is_missing_z
              (start (mk_ov 1 2 3 (Some cb_silent) ScopeNull)) 2 2 0 eq_refl)
    as (_ & (_ & Hs) & _).
  split.
  - cbn [this start] in Hd. rewrite Hd. vm_compute. reflexivity.
  - rewrite Hs. vm_compute. reflexivity.
Defined.

(** ** [equals] *)

Lemma truthy_not_nan (n : number) : truthy n = true -> is_nan n = false.
Proof. unfold truthy. destruct (is_nan n); [discriminate | reflexivity]. Qed.

(** What [equals] computes on the third axis. *)
Lemma equals_cases (o : ObservableVector3d) (v : vec) :
  equals o v =
    (_x o === vx v) && (_y o === vy v) &&
    match vz v with
    | Some n => if truthy n then _z o === n else negb (is_nan (_z o))
    | None => negb (is_nan (_z o))
    end.
Proof.
  unfold equals. f_equal. destruct (vz v) as [n|]; cbn [prop_or_else].
  - unfold or_else. destruct (truthy n); [reflexivity |].
    apply Binary64.eqb_refl_not_nan.
  - apply Binary64.eqb_refl_not_nan.
Qed.

(** C6 at [this = (1, 2, 3)] and [v = Vector3d(1, 2, 0)]: [equals] answers
    [true] although [this.z === v.z] is [false]; the [z] of the argument is
    present, and is not compared because it is falsy. *)
Theorem equals_skips_zero_z :
  let a := mk_ov 1 2 3 (Some cb_silent) ScopeNull in
  let v := Vector3d 1 2 0 in
  equals a v = true /\
  (_x a === vx v) = true /\
  (_y a === vy v) = true /\
  vz v = Some 0 /\
  (_z a === 0) = false.
Proof. repeat split. Qed.

(** ** [moveTowards] *)

(** The two branches of [moveTowards]. *)
Lemma moveTowards_cases (E : Env) (target : vec) (step : number) (w : world) :
  let o := this w in
  let dx := _x o - vx target in
  let dy := _y o - vy target in
  let distance := Math_sqrt (dx * dx + dy * dy) in
  let angle := Math_atan2 E (vy target - _y o) (vx target - _x o) in
  moveTowards E target step w =
    if (distance === 0) || ((0 <=? step) && (distance <=? step * step))
    then (Ok (RefArg target), w)
    else _set (_x o + Math_cos E angle * step)
              (_y o + Math_sin E angle * step)
              (_z o) w.
Proof.
  intros o dx dy distance angle. unfold moveTowards. run_M.
  fold o. fold dx. fold dy. fold distance.
  destruct ((distance === 0) || ((0 <=? step) && (distance <=? step * step)));
    reflexivity.
Qed.

(** C4 at [this = (0, 0, 0)].  With [target = (3, 4)] and [step = 3] the
    distance is [5] and [step * step] is [9]: the call returns [target],
    the receiver is where it was and no callback is invoked, although the
    target is farther than [step].  With [target = (0.5, 0)] and
    [step = 0.625] the distance [0.5] is within [step] but above
    [step * step]: the call is a step of [0.625] and not a snap. *)
Theorem moveTowards_compares_distance_with_square (E : Env) :
  let a := mk_ov 0 0 0 (Some cb_silent) ScopeNull in
  (Math_sqrt ((0 - 3) * (0 - 3) + (0 - 4) * (0 - 4)) = 5 /\
   (5 <=? 3) = false /\
   moveTowards E (Vector2d 3 4) 3 (start a)
   = (Ok (RefArg (Vector2d 3 4)), start a)) /\
  (Math_sqrt ((0 - 0.5) * (0 - 0.5) + (0 - 0) * (0 - 0)) = 0.5 /\
   (0.5 <=? 0.625) = true /\
   moveTowards E (Vector2d 0.5 0) 0.625 (start a)
   = _set (0 + Math_cos E (Math_atan2 E (0 - 0) (0.5 - 0)) * 0.625)
          (0 + Math_sin E (Math_atan2 E (0 - 0) (0.5 - 0)) * 0.625)
          0 (start a)).
Proof.
  intros a. split; (split; [vm_compute; reflexivity |]);
    (split; [vm_compute; reflexivity |]);
    rewrite moveTowards_cases; reflexivity.
Qed.

(** ** [clone] *)

Lemma clone_run (w : world) (f : callback) :
  onUpdate (this w) = Some f ->
  let o := this w in
  clone w =
    (Ok (mk_ov (_x o) (_y o) (_z o ||| 0) (Some f) ScopeNull),
     mk_world o (calls w) (tl (pool w))).
Proof.
  destruct w as [o cs [|p rest]]; cbn [this calls pool]; intros Hf;
    unfold clone, pool_pull, onUpdate_value; run_M; rewrite Hf; reflexivity.
Qed.

(** The third test of [equals] always passes on a clone. *)
Lemma clone_z_matches (n : number) :
  ((n ||| 0) === (Some n ?|| (n ||| 0))) = true.
Proof.
  cbn [prop_or_else]. unfold or_else. destruct (truthy n) eqn:Ht.
  - unfold strict_eq. rewrite Binary64.eqb_refl_not_nan.
    rewrite (truthy_not_nan n Ht). reflexivity.
  - reflexivity.
Qed.

(** C8, as amended.  [clone()] pulls from the pool a vector whose [x] and
    [y] are this vector's and whose [z] is [this.z || 0]; it invokes no
    callback and leaves the receiver as it is; the clone is bound to this
    vector's [onUpdate] and its scope is [null] whatever this vector's scope
    is.  [clone().equals(this)] is [true] exactly when neither [x] nor [y]
    is [NaN]. *)
Theorem clone_equals_unless_nan (w : world) (f : callback) :
  onUpdate (this w) = Some f ->
  let o := this w in
  exists c w',
    clone w = (Ok c, w') /\
    this w' = o /\
    calls w' = calls w /\
    coords c = (_x o, _y o, _z o ||| 0) /\
    onUpdate c = Some f /\
    scope c = ScopeNull /\
    equals c (as_vec o) = negb (is_nan (_x o)) && negb (is_nan (_y o)) /\
    (is_nan (_x o) = false -> is_nan (_y o) = false ->
     equals c (as_vec o) = true).
Proof.
  intros Hf o.
  assert (He : equals (mk_ov (_x o) (_y o) (_z o ||| 0) (Some f) ScopeNull)
                 (as_vec o)
               = negb (is_nan (_x o)) && negb (is_nan (_y o))).
  { unfold equals, as_vec, get_x, get_y, get_z. cbn [_x _y _z vx vy vz].
    rewrite clone_z_matches, andb_true_r. unfold strict_eq.
    rewrite !Binary64.eqb_refl_not_nan. reflexivity. }
  do 2 eexists. split; [apply (clone_run w f Hf) |]. fold o.
  cbn [this calls]. repeat split; try exact He.
  intros Hx Hy. rewrite He, Hx, Hy. reflexivity.
Qed.

Lemma clone_equals_unless_nan_witness :
  onUpdate (this (start (mk_ov 1 2 3 (Some cb_ten) (ScopeObject 5))))
    = Some cb_ten /\
  exists c w',
    clone (start (mk_ov 1 2 3 (Some cb_ten) (ScopeObject 5))) = (Ok c, w') /\
    c = mk_ov 1 2 3 (Some cb_ten) ScopeNull /\
    calls w' = [] /\
    equals c (as_vec (mk_ov 1 2 3 (Some cb_ten) (ScopeObject 5))) = true.
Proof.
  split; [reflexivity |].
  destruct (clone_equals_unless_nan
              (start (mk_ov 1 2 3 (Some cb_ten) (ScopeObject 5)))
              cb_ten eq_refl)
    as (c & w' & Hrun & _ & Hcalls & _ & _ & _ & _ & Heq).
  exists c, w'. split; [exact Hrun |].
  split; [vm_compute in Hrun; injection Hrun as <- _; reflexivity |].
  split; [exact Hcalls |].
  apply Heq; reflexivity.
Defined.

(** C8, as stated, fails on the vector left by [(0, 0, 0).div(0)], which
    is [(NaN, NaN, 0)]: its clone has the same coordinates, and
    [clone().equals(v)] is [false]. *)
Lemma clone_of_nan_not_equal :
  let w := snd (div 0 (start (mk_ov 0 0 0 (Some cb_silent) ScopeNull))) in
  coords (this w) = (nan, nan, 0) /\
  exists c w',
    clone w = (Ok c, w') /\
    coords c = (nan, nan, 0) /\
    equals c (as_vec (this w)) = false.
Proof.
  split; [vm_compute; reflexivity |].
  do 2 eexists. split; [vm_compute; reflexivity |].
  split; vm_compute; reflexivity.
Qed.

(** ** The callback is mandatory *)

Lemma setCallback_function (g : callback) (sc : scope_val) (w : world) :
  setCallback (JFunction g) sc w =
    (Ok RefThis,
     mk_world
       (mk_ov (_x (this w)) (_y (this w)) (_z (this w)) (Some g)
              (scope_or_null sc))
       (calls w) (pool w)).
Proof. reflexivity. Qed.

Lemma setCallback_not_function (fn : js_value) (sc : scope_val) (w : world) :
  is_function fn = false ->
  setCallback fn sc w = (Throw (Error "invalid `onUpdate` callback"), w).
Proof. destruct fn; [reflexivity .. | discriminate]. Qed.

Lemma new_without_settings (x y z : option number) (w : world) :
  new_ObservableVector3d x y z None w =
    (Throw (Error "undefined `onUpdate` callback"), w).
Proof. destruct w. reflexivity. Qed.

Lemma new_not_function (x y z : option number) (fn : js_value)
    (sc : scope_val) (w : world) :
  is_function fn = false ->
  new_ObservableVector3d x y z (Some (mk_settings fn sc)) w =
    (Throw (Error "invalid `onUpdate` callback"), w).
Proof. destruct w, fn; [reflexivity .. | discriminate]. Qed.

Lemma new_function (x y z : option number) (g : callback) (sc : scope_val)
    (w : world) :
  new_ObservableVector3d x y z (Some (mk_settings (JFunction g) sc)) w =
    (Ok (mk_ov (default_arg x 0) (default_arg y 0) (default_arg z 0 ||| 0)
               (Some g)
               (scope_or_null sc)),
     w).
Proof. destruct w. reflexivity. Qed.

(** Every vector a [new] expression returns is bound. *)
Lemma constructed_is_bound (x y z : option number) (s : option settings)
    (w w' : world) (o : ObservableVector3d) :
  new_ObservableVector3d x y z s w = (Ok o, w') -> bound o.
Proof.
  destruct s as [[fn sc]|].
  - destruct (is_function fn) eqn:Hfn.
    + destruct fn; try discriminate. rewrite new_function.
      intros [= <- _]. eexists. reflexivity.
    + rewrite (new_not_function x y z fn sc w Hfn). discriminate.
  - rewrite new_without_settings. discriminate.
Qed.

(** A [new] expression leaves the receiver of the running method as it
    is, and so does a pull from the pool. *)
Lemma new_keeps_this (x y z : option number) (s : option settings)
    (w : world) :
  this (snd (new_ObservableVector3d x y z s w)) = this w.
Proof.
  unfold new_ObservableVector3d, on_object. run_M.
  destruct (constructor x y z s _) as [[a|e] w'']; reflexivity.
Qed.

Lemma pool_pull_keeps_this (x y z : option number) (s : option settings)
    (w : world) :
  this (snd (pool_pull x y z s w)) = this w.
Proof.
  unfold pool_pull. destruct (pool w) as [|p rest].
  - apply new_keeps_this.
  - unfold on_object. run_M.
    destruct (onResetEvent x y z s _) as [[a|e] w'']; reflexivity.
Qed.

Lemma drop_result {A} (m : M A) (w : world) :
  snd ((m;; mret tt) w) = snd (m w).
Proof. run_M. destruct (m w) as [[a|e] w']; reflexivity. Qed.

(** No method or setter unbinds the callback of a bound vector, whether
    it returns or throws. *)
Lemma bound_preserved (E : Env) (op : operation) (w : world) :
  bound (this w) -> bound (this (snd (run_op E op w))).
Proof.
  intros [f Hf].
  destruct op as [v|v|v|m|x y z|fn sc|x y z s|target step|low high| | | |];
    unfold run_op; rewrite ?drop_result.
  - rewrite (set_x_run w f _ Hf). eexists. reflexivity.
  - rewrite (set_y_run w f _ Hf). eexists. reflexivity.
  - rewrite (set_z_run w f _ Hf). eexists. reflexivity.
  - destruct (exec_is__set E m w) as (a & b & c & Hm). rewrite Hm.
    rewrite (_set_run w f a b c Hf). cbn [snd this].
    destruct (has_key _ "x" && has_key _ "y" && has_key _ "z");
      eexists; reflexivity.
  - exists f. exact Hf.
  - destruct fn; try (exists f; exact Hf). eexists. reflexivity.
  - rewrite onResetEvent_run.
    destruct s as [[[] sc]|]; try (exists f; exact Hf).
    eexists. reflexivity.
  - rewrite moveTowards_cases.
    match goal with |- context [if ?c then _ else _] => destruct c end.
    + exists f. exact Hf.
    + rewrite (_set_run w f _ _ _ Hf). cbn [snd this].
      destruct (has_key _ "x" && has_key _ "y" && has_key _ "z");
        eexists; reflexivity.
  - unfold clamp_. run_M. rewrite new_keeps_this. exists f. exact Hf.
  - unfold floor. run_M. rewrite new_keeps_this. exists f. exact Hf.
  - unfold ceil. run_M. rewrite new_keeps_this. exists f. exact Hf.
  - unfold negate. run_M. rewrite new_keeps_this. exists f. exact Hf.
  - unfold clone. run_M. rewrite pool_pull_keeps_this. exists f. exact Hf.
Qed.

(** C3.  Construction without a settings object, or with one whose
    [onUpdate] is not a function, throws at once and yields no object, and
    so does [setCallback] on a value that is not a function, which leaves
    the receiver as it was.  A function given to the constructor or to
    [setCallback] becomes the bound callback.  Hence a bound vector stays
    bound whatever [setCallback] is given, and whatever method or setter
    runs on it. *)
Theorem callback_is_mandatory (w : world) (x y z : option number)
    (fn : js_value) (sc : scope_val) :
  new_ObservableVector3d x y z None w =
    (Throw (Error "undefined `onUpdate` callback"), w) /\
  (is_function fn = false ->
   new_ObservableVector3d x y z (Some (mk_settings fn sc)) w =
     (Throw (Error "invalid `onUpdate` callback"), w) /\
   setCallback fn sc w = (Throw (Error "invalid `onUpdate` callback"), w)) /\
  (forall g, fn = JFunction g ->
     (exists o,
         new_ObservableVector3d x y z (Some (mk_settings fn sc)) w = (Ok o, w) /\
         onUpdate o = Some g) /\
     (exists w',
         setCallback fn sc w = (Ok RefThis, w') /\
         onUpdate (this w') = Some g /\
         coords (this w') = coords (this w) /\
         calls w' = calls w)) /\
  (bound (this w) ->
   bound (this (snd (setCallback fn sc w))) /\
   forall E op, bound (this (snd (run_op E op w)))).
Proof.
  split; [apply new_without_settings |].
  split; [intros Hn; split;
          [apply new_not_function, Hn | apply setCallback_not_function, Hn] |].
  split.
  - intros g ->. split.
    + eexists. split; [apply new_function | reflexivity].
    + eexists. split; [apply setCallback_function |]. repeat split.
  - intros Hb. split.
    + destruct fn; try exact Hb.
      rewrite setCallback_function. eexists. reflexivity.
    + intros E op. apply bound_preserved, Hb.
Qed.

(** A constructed vector is bound, and the calls recorded so far are
    not touched by its construction. *)
Example new_bound :
  new_ObservableVector3d (Some 1) (Some 2) None
      (Some (mk_settings (JFunction cb_silent) ScopeUndefined))
      (start blank)
  = (Ok (mk_ov 1 2 0 (Some cb_silent) ScopeNull), start blank).
Proof. reflexivity. Qed.

Example setCallback_rejects_number :
  let a := mk_ov 1 2 3 (Some cb_ten) (ScopeObject 1) in
  setCallback (JNumber 5) ScopeNull (start a)
  = (Throw (Error "invalid `onUpdate` callback"), start a).
Proof. reflexivity. Qed.

(** * Further properties of the vector methods *)

Lemma notifies_only_no_override (f : callback) sc a b c a' b' c' :
  notifies_only f ->
  let r := f sc a b c a' b' c' in
  has_key r "x" && has_key r "y" && has_key r "z" = false.
Proof.
  intros Hn r. destruct (Hn sc a b c a' b' c') as [H | [H | H]];
    apply has_key_false in H; fold r in H; rewrite H;
    rewrite ?andb_false_r; reflexivity.
Qed.

(** The batch write under a callback that does not override. *)
Lemma _set_quiet (w : world) (f : callback) (x y z : number) :
  onUpdate (this w) = Some f ->
  notifies_only f ->
  let o := this w in
  _set x y z w =
    (Ok RefThis,
     mk_world (mk_ov x y (z ||| 0) (Some f) (scope o))
       (calls w ++ [mk_call f (scope o) (x, y, z) (_x o, _y o, _z o)])
       (pool w)).
Proof.
  intros Hf Hn o. rewrite (_set_run w f x y z Hf). cbv zeta.
  rewrite (notifies_only_no_override f _ _ _ _ _ _ _ Hn). reflexivity.
Qed.

Lemma or_zero_idem (z : number) : (z ||| 0) ||| 0 = z ||| 0.
Proof.
  unfold or_else. destruct (truthy z) eqn:H; cbv beta iota;
    [rewrite H |]; reflexivity.
Qed.

Lemma or_zero_not_nan (z : number) : is_nan (z ||| 0) = false.
Proof.
  unfold or_else. destruct (truthy z) eqn:H; [| reflexivity].
  apply truthy_not_nan, H.
Qed.

Lemma truthy_opp (z : number) : truthy (- z) = truthy z.
Proof.
  unfold truthy. rewrite Binary64Alg.is_nan_opp, Binary64Alg.is_zero_opp.
  reflexivity.
Qed.

(** [-(z || 0) || 0] is [-z || 0]. *)
Lemma or_zero_opp (z : number) : (- (z ||| 0)) ||| 0 = (- z) ||| 0.
Proof.
  unfold or_else. destruct (truthy z) eqn:H; cbv beta iota;
    [reflexivity |].
  rewrite (truthy_opp z), H. reflexivity.
Qed.

(** X1.  Under a callback that does not override, [negateSelf()] twice
    gives back [x] and [y] exactly and leaves [z || 0] in [z]; the callback
    is invoked twice. *)
Theorem negateSelf_twice (w : world) (f : callback) :
  onUpdate (this w) = Some f ->
  notifies_only f ->
  let o := this w in
  exists w1 w2,
    negateSelf w = (Ok RefThis, w1) /\
    negateSelf w1 = (Ok RefThis, w2) /\
    coords (this w1) = (- _x o, - _y o, (- _z o) ||| 0) /\
    coords (this w2) = (_x o, _y o, _z o ||| 0) /\
    length (calls w2) = (length (calls w) + 2)%nat.
Proof.
  intros Hf Hn o.
  assert (H1 : negateSelf w = _set (- _x o) (- _y o) (- _z o) w) by reflexivity.
  rewrite (_set_quiet w f _ _ _ Hf Hn) in H1. fold o in H1.
  eexists. eexists. split; [exact H1 |].
  match type of H1 with _ = (_, ?w1) => set (w1' := w1) end.
  assert (Hf1 : onUpdate (this w1') = Some f) by reflexivity.
  assert (H2 : negateSelf w1' =
               _set (- _x (this w1')) (- _y (this w1')) (- _z (this w1')) w1')
    by reflexivity.
  rewrite (_set_quiet w1' f _ _ _ Hf1 Hn) in H2.
  split; [exact H2 |]. cbn [this coords _x _y _z calls w1'].
  rewrite !Binary64Alg.opp_involutive, or_zero_opp,
    Binary64Alg.opp_involutive.
  repeat split. rewrite !length_app. cbn. lia.
Qed.

(** One step of a chain. *)
Lemma run_ops_cons (E : Env) (op : operation) (rest : list operation)
    (w w' : world) :
  run_op E op w = (Ok tt, w') ->
  run_ops E (op :: rest) w = run_ops E rest w'.
Proof. intros H. cbn [run_ops]. run_M. rewrite H. reflexivity. Qed.

Lemma run_op_mutation (E : Env) (m : mutation) (w w' : world) :
  exec E m w = (Ok RefThis, w') ->
  run_op E (OpMutation m) w = (Ok tt, w').
Proof. intros H. cbn [run_op]. run_M. rewrite H. reflexivity. Qed.

Lemma perp_quiet (w : world) (f : callback) :
  onUpdate (this w) = Some f ->
  notifies_only f ->
  let o := this w in
  perp w =
    (Ok RefThis,
     mk_world (mk_ov (_y o) (- _x o) (_z o ||| 0) (Some f) (scope o))
       (calls w ++
        [mk_call f (scope o) (_y o, - _x o, _z o) (_x o, _y o, _z o)])
       (pool w)).
Proof.
  intros Hf Hn o. change (perp w) with (_set (_y o) (- _x o) (_z o) w).
  apply (_set_quiet w f _ _ _ Hf Hn).
Qed.

(** X2.  Under a callback that does not override, [perp()] twice
    negates [x] and [y], and four times restores them exactly; [z] is
    [z || 0] throughout and the callback is invoked once per call. *)
Theorem perp_four_times (E : Env) (w : world) (f : callback) :
  onUpdate (this w) = Some f ->
  notifies_only f ->
  let o := this w in
  exists w2 w4,
    run_ops E (replicate 2 (OpMutation MPerp)) w = (Ok tt, w2) /\
    run_ops E (replicate 4 (OpMutation MPerp)) w = (Ok tt, w4) /\
    coords (this w2) = (- _x o, - _y o, _z o ||| 0) /\
    coords (this w4) = (_x o, _y o, _z o ||| 0) /\
    length (calls w4) = (length (calls w) + 4)%nat.
Proof.
  intros Hf Hn o. cbn [replicate].
  assert (Hstep : forall w0, onUpdate (this w0) = Some f ->
            run_op E (OpMutation MPerp) w0 = (Ok tt, _))
    by (intros w0 H0; apply run_op_mutation, (perp_quiet w0 f H0 Hn)).
  do 2 eexists.
  split; [| split].
  - do 2 (erewrite run_ops_cons by (apply Hstep; first [exact Hf | reflexivity])).
    reflexivity.
  - do 4 (erewrite run_ops_cons by (apply Hstep; first [exact Hf | reflexivity])).
    reflexivity.
  - cbn [this calls pool _x _y _z scope coords]. fold o.
    rewrite !or_zero_idem, !Binary64Alg.opp_involutive.
    repeat split. rewrite !length_app. cbn. lia.
Qed.

(** What a [new] expression with three numbers and this vector's own
    callback and scope builds. *)
Lemma new_from_this (w : world) (f : callback) (a b c : number) :
  onUpdate (this w) = Some f ->
  new_ObservableVector3d (Some a) (Some b) (Some c)
    (Some (mk_settings (onUpdate_value (this w)) (scope (this w)))) w
  = (Ok (mk_ov a b (c ||| 0) (Some f) (scope_or_null (scope (this w)))), w).
Proof.
  intros Hf. unfold onUpdate_value. rewrite Hf. apply new_function.
Qed.

(** X3.  [clamp], [floor], [ceil] and [negate] invoke no callback and
    leave the receiver, the recorded invocations and the pool as they are.
    The vector they return is bound to this vector's callback and scope, its
    [z] is not [NaN], and its coordinates are the ones the [Self] form of the
    method commits when the callback does not override. *)
Theorem twin_new_is_silent (E : Env) (t : twin) (w : world) (f : callback) :
  onUpdate (this w) = Some f ->
  exists c,
    twin_new E t w = (Ok c, w) /\
    onUpdate c = Some f /\
    scope c = scope_or_null (scope (this w)) /\
    is_nan (_z c) = false /\
    (notifies_only f ->
     exists w',
       twin_self E t w = (Ok RefThis, w') /\
       coords (this w') = coords c).
Proof.
  intros Hf.
  destruct t as [low high| | |];
    (eexists; split;
     [cbn [twin_new]; unfold clamp_, floor, ceil, negate; run_M;
      apply (new_from_this w f _ _ _ Hf) |];
     cbn [onUpdate scope _z coords _x _y];
     split; [reflexivity |]; split; [reflexivity |];
     split; [apply or_zero_not_nan |];
     intros Hn; eexists; split;
     [cbn [twin_self]; unfold clampSelf, floorSelf, ceilSelf, negateSelf;
      run_M; apply (_set_quiet w f _ _ _ Hf Hn) | reflexivity]).
Qed.

Lemma copy_z_matches (vz : option number) :
  (((vz ?|| 0) ||| 0) === (vz ?|| ((vz ?|| 0) ||| 0))) = true.
Proof.
  destruct vz as [n|]; [| reflexivity]. cbn [prop_or_else].
  rewrite or_zero_idem. unfold or_else. destruct (truthy n) eqn:H.
  - unfold strict_eq. rewrite Binary64.eqb_refl_not_nan.
    rewrite (truthy_not_nan n H). reflexivity.
  - reflexivity.
Qed.

(** X4.  After [copy(v)] under a callback that does not override, the
    coordinates are [(v.x, v.y, v.z || 0)] and [equals(v)] is [true] exactly
    when neither [v.x] nor [v.y] is [NaN]; the third test always passes,
    also for an argument without [z]. *)
Theorem copy_then_equals (w : world) (f : callback) (v : vec) :
  onUpdate (this w) = Some f ->
  notifies_only f ->
  exists w',
    copy v w = (Ok RefThis, w') /\
    coords (this w') = (vx v, vy v, (vz v ?|| 0) ||| 0) /\
    equals (this w') v = negb (is_nan (vx v)) && negb (is_nan (vy v)).
Proof.
  intros Hf Hn. eexists.
  split; [apply (_set_quiet w f _ _ _ Hf Hn) |].
  split; [reflexivity |].
  unfold equals. cbn [this _x _y _z]. rewrite copy_z_matches, andb_true_r.
  unfold strict_eq. rewrite !Binary64.eqb_refl_not_nan. reflexivity.
Qed.

Lemma lerp_term_zero (x t : number) :
  is_finite (t - x) = true -> (x + (t - x) * 0 === x) = true.
Proof.
  intros H. apply Binary64Alg.add_zero_like.
  - apply (Binary64Alg.sub_finite_not_nan t x H).
  - apply Binary64Alg.mul_zero_r; [exact H | reflexivity].
Qed.

Lemma lerp_term_self (x alpha : number) :
  is_finite x = true -> is_finite alpha = true ->
  (x + (x - x) * alpha === x) = true.
Proof.
  intros Hx Ha. apply Binary64Alg.add_zero_like.
  - apply Binary64Alg.is_finite_not_nan, Hx.
  - rewrite (Binary64Alg.sub_diag x Hx).
    apply Binary64Alg.mul_zero_l; [reflexivity | exact Ha].
Qed.

(** X5.  [lerp(v, 0)] towards a 3D vector leaves every coordinate [===]
    to what it was, provided the three differences [v.x - x], [v.y - y] and
    [v.z - z] are finite (and the callback does not override). *)
Theorem lerp_alpha_zero (w : world) (f : callback) (tx ty tz : number) :
  onUpdate (this w) = Some f ->
  notifies_only f ->
  let o := this w in
  is_finite (tx - _x o) = true ->
  is_finite (ty - _y o) = true ->
  is_finite (tz - _z o) = true ->
  exists w',
    lerp (Vector3d tx ty tz) 0 w = (Ok RefThis, w') /\
    same_coords (coords (this w')) (coords o) = true.
Proof.
  intros Hf Hn o Hx Hy Hz. eexists. split.
  - unfold lerp. run_M. apply (_set_quiet w f _ _ _ Hf Hn).
  - cbn [this coords _x _y _z vx vy vz Vector3d same_coords default
         from_option id]. fold o.
    rewrite (lerp_term_zero _ _ Hx), (lerp_term_zero _ _ Hy). cbn [andb].
    apply Binary64.or_zero_eqb, lerp_term_zero, Hz.
Qed.

(** X6.  [lerp] towards the vector's own coordinates leaves every
    coordinate [===] to what it was, for a finite [alpha] and finite
    coordinates (and a callback that does not override). *)
Theorem lerp_towards_itself (w : world) (f : callback) (alpha : number) :
  onUpdate (this w) = Some f ->
  notifies_only f ->
  let o := this w in
  is_finite (_x o) = true ->
  is_finite (_y o) = true ->
  is_finite (_z o) = true ->
  is_finite alpha = true ->
  exists w',
    lerp (as_vec o) alpha w = (Ok RefThis, w') /\
    same_coords (coords (this w')) (coords o) = true.
Proof.
  intros Hf Hn o Hx Hy Hz Ha. eexists. split.
  - unfold lerp. run_M. apply (_set_quiet w f _ _ _ Hf Hn).
  - cbn [this coords _x _y _z vx vy vz as_vec get_x get_y get_z same_coords
         default from_option id]. unfold get_x, get_y, get_z. fold o.
    rewrite (lerp_term_self _ _ Hx Ha), (lerp_term_self _ _ Hy Ha).
    cbn [andb]. apply Binary64.or_zero_eqb, lerp_term_self; assumption.
Qed.



(** X8.  [perp()], [rotate(angle, v)], [abs()] and [scale(x, y)] without
    a third factor hand the stored [z] to the batch write (for [scale],
    [z * 1] is [z]); when the callback does not override and [z] is not
    [NaN], the stored [z] stays [===] to what it was. *)
Theorem planar_mutations_keep_z (E : Env) (m : mutation) (w : world) :
  planar m = true ->
  let o := this w in
  (exists a b, exec E m w = _set a b (_z o) w) /\
  (forall f,
      onUpdate o = Some f -> notifies_only f -> is_nan (_z o) = false ->
      z_kept (exec E m) w).
Proof.
  intros Hp o.
  assert (H : exists a b, exec E m w = _set a b (_z o) w).
  { destruct m as [| |s y [z|]| | | | | | | | | | | |angle [p|]| |];
      try discriminate; cbn [exec]; do 2 eexists;
      try reflexivity.
    unfold scale. run_M. cbn [default_arg]. rewrite Binary64.mul_one.
    reflexivity. }
  split; [exact H |].
  intros f Hf Hn Hz. destruct H as (a & b & H). unfold z_kept. rewrite H.
  apply (_set_z_kept w f a b _ Hf Hn). unfold strict_eq. fold o.
  rewrite Binary64.eqb_refl_not_nan, Hz. reflexivity.
Qed.

Lemma min_expr_le (x t : number) :
  is_nan x = false -> is_nan t = false ->
  let m := if x <? t then x else t in
  is_nan m = false /\ (m <=? x) = true /\ (m <=? t) = true.
Proof.
  intros Hx Ht m. subst m. destruct (x <? t) eqn:H.
  - split; [exact Hx |]. split.
    + apply Binary64Alg.leb_refl, Hx.
    + apply Binary64Alg.ltb_leb, H.
  - split; [exact Ht |]. split.
    + apply Binary64Alg.ltb_false_leb; assumption.
    + apply Binary64Alg.leb_refl, Ht.
Qed.

Lemma max_expr_ge (x t : number) :
  is_nan x = false -> is_nan t = false ->
  let m := if t <? x then x else t in
  is_nan m = false /\ (x <=? m) = true /\ (t <=? m) = true.
Proof.
  intros Hx Ht m. subst m. destruct (t <? x) eqn:H.
  - split; [exact Hx |]. split.
    + apply Binary64Alg.leb_refl, Hx.
    + apply Binary64Alg.ltb_leb, H.
  - split; [exact Ht |]. split.
    + apply Binary64Alg.ltb_false_leb; assumption.
    + apply Binary64Alg.leb_refl, Ht.
Qed.

Lemma or_zero_leb_l (m y : number) :
  is_nan m = false -> ((m ||| 0) <=? y) = (m <=? y).
Proof.
  intros Hm. unfold or_else, truthy. rewrite Hm. cbn [orb].
  destruct (is_zero m) eqn:Hz; cbn [negb]; [| reflexivity].
  apply Binary64Alg.leb_zero_l, Hz.
Qed.

Lemma prop_or_zero_not_nan (a : option number) : is_nan (a ?|| 0) = false.
Proof. destruct a as [n|]; [apply or_zero_not_nan | reflexivity]. Qed.

Lemma or_zero_leb_r (m y : number) :
  is_nan m = false -> (y <=? (m ||| 0)) = (y <=? m).
Proof.
  intros Hm. unfold or_else, truthy. rewrite Hm. cbn [orb].
  destruct (is_zero m) eqn:Hz; cbn [negb]; [| reflexivity].
  apply Binary64Alg.leb_zero_r, Hz.
Qed.

(** X9.  For coordinates that are not [NaN] and a callback that does not
    override, [minV(v)] commits coordinates that are [<=] both this vector's
    and the argument's, and [maxV(v)] coordinates that are [>=] both; a
    missing or falsy [z] of the argument counts as [0]. *)
Theorem minV_maxV_bound (w : world) (f : callback) (v : vec) :
  onUpdate (this w) = Some f ->
  notifies_only f ->
  let o := this w in
  let arg := (vx v, vy v, vz v ?|| 0) in
  is_nan (_x o) = false -> is_nan (_y o) = false -> is_nan (_z o) = false ->
  is_nan (vx v) = false -> is_nan (vy v) = false ->
  (exists w',
      minV v w = (Ok RefThis, w') /\
      coords_le (coords (this w')) (coords o) = true /\
      coords_le (coords (this w')) arg = true) /\
  (exists w',
      maxV v w = (Ok RefThis, w') /\
      coords_le (coords o) (coords (this w')) = true /\
      coords_le arg (coords (this w')) = true).
Proof.
  intros Hf Hn o arg Hx Hy Hz Hvx Hvy.
  pose proof (prop_or_zero_not_nan (vz v)) as Hvz.
  split.
  - destruct (min_expr_le _ _ Hx Hvx) as (_ & Hx1 & Hx2).
    destruct (min_expr_le _ _ Hy Hvy) as (_ & Hy1 & Hy2).
    destruct (min_expr_le _ _ Hz Hvz) as (Hzn & Hz1 & Hz2).
    eexists. split; [unfold minV; run_M; apply (_set_quiet w f _ _ _ Hf Hn) |].
    cbn [this coords _x _y _z coords_le arg]. fold o.
    rewrite !(or_zero_leb_l _ _ Hzn), Hx1, Hx2, Hy1, Hy2, Hz1, Hz2.
    split; reflexivity.
  - destruct (max_expr_ge _ _ Hx Hvx) as (_ & Hx1 & Hx2).
    destruct (max_expr_ge _ _ Hy Hvy) as (_ & Hy1 & Hy2).
    destruct (max_expr_ge _ _ Hz Hvz) as (Hzn & Hz1 & Hz2).
    eexists. split; [unfold maxV; run_M; apply (_set_quiet w f _ _ _ Hf Hn) |].
    cbn [this coords _x _y _z coords_le arg]. fold o.
    rewrite !(or_zero_leb_r _ _ Hzn), Hx1, Hx2, Hy1, Hy2, Hz1, Hz2.
    split; reflexivity.
Qed.

(** X10.  [cross] on an argument without [z] attempts [NaN] for [x] and
    [y] and [ax * by - ay * bx] for [z]: when the callback does not override,
    the stored [x] and [y] are [NaN]. *)
Theorem cross_without_z (w : world) (bx by_ : number) :
  let o := this w in
  cross (Vector2d bx by_) w = _set nan nan (_x o * by_ - _y o * bx) w /\
  (forall f,
      onUpdate o = Some f -> notifies_only f ->
      exists w',
        cross (Vector2d bx by_) w = (Ok RefThis, w') /\
        is_nan (_x (this w')) = true /\
        is_nan (_y (this w')) = true).
Proof.
  intros o.
  assert (H : cross (Vector2d bx by_) w
              = _set nan nan (_x o * by_ - _y o * bx) w).
  { unfold cross. run_M. fold o.
    cbn [vz vx vy Vector2d default from_option id].
    rewrite !Binary64Alg.mul_nan_r, Binary64Alg.sub_nan_l,
      Binary64Alg.sub_nan_r. reflexivity. }
  split; [exact H |]. intros f Hf Hn. rewrite H. eexists.
  split; [apply (_set_quiet w f _ _ _ Hf Hn) |]. split; reflexivity.
Qed.

(** X11.  The cross product of a vector with its own coordinates is
    [(0, 0, 0)] when the three products [y * z], [z * x] and [x * y] are
    finite (and the callback does not override). *)
Theorem cross_with_itself (w : world) (f : callback) :
  onUpdate (this w) = Some f ->
  notifies_only f ->
  let o := this w in
  is_finite (_y o * _z o) = true ->
  is_finite (_z o * _x o) = true ->
  is_finite (_x o * _y o) = true ->
  exists w',
    cross (as_vec o) w = (Ok RefThis, w') /\
    coords (this w') = (0, 0, 0).
Proof.
  intros Hf Hn o Hyz Hzx Hxy. eexists.
  split; [unfold cross; run_M; apply (_set_quiet w f _ _ _ Hf Hn) |].
  cbn [this coords _x _y _z vx vy vz as_vec default from_option id].
  unfold get_x, get_y, get_z. fold o.
  rewrite (Binary64Alg.mul_comm (_z o) (_y o)).
  rewrite (Binary64Alg.mul_comm (_x o) (_z o)).
  rewrite (Binary64Alg.mul_comm (_y o) (_x o)).
  rewrite !Binary64Alg.sub_diag by assumption. reflexivity.
Qed.

(** X7.  On an argument without [z], [lerp] attempts [NaN] for [z]
    whatever [alpha] is: when the callback does not override, the stored [z]
    becomes [0]. *)
Theorem lerp_without_z (w : world) (tx ty alpha : number) :
  let o := this w in
  lerp (Vector2d tx ty) alpha w =
    _set (_x o + (tx - _x o) * alpha) (_y o + (ty - _y o) * alpha) nan w /\
  (forall f,
      onUpdate o = Some f -> notifies_only f ->
      exists w',
        lerp (Vector2d tx ty) alpha w = (Ok RefThis, w') /\
        _z (this w') = 0).
Proof.
  intros o.
  assert (H : lerp (Vector2d tx ty) alpha w =
    _set (_x o + (tx - _x o) * alpha) (_y o + (ty - _y o) * alpha) nan w).
  { unfold lerp. run_M. fold o.
    cbn [vz vx vy Vector2d default from_option id].
    rewrite Binary64Alg.sub_nan_l, Binary64Alg.mul_nan_l,
      Binary64Alg.add_nan_r. reflexivity. }
  split; [exact H |]. intros f Hf Hn. rewrite H. eexists.
  split; [apply (_set_quiet w f _ _ _ Hf Hn) |]. reflexivity.
Qed.

Lemma sq_sub_or_zero (a b : number) :
  is_nan b = false ->
  (a - (b ||| 0)) * (a - (b ||| 0)) = (a - b) * (a - b).
Proof.
  intros Hb. unfold or_else, truthy. rewrite Hb. cbn [orb].
  destruct (is_zero b) eqn:Hz; cbn [negb]; [| reflexivity].
  symmetry. apply Binary64Alg.sq_sub_zero, Hz.
Qed.

(** X12.  Between two observable vectors whose [z] is not [NaN],
    [a.distance(b)] is [b.distance(a)]. *)
Theorem distance_symmetric (a b : ObservableVector3d) :
  is_nan (_z a) = false ->
  is_nan (_z b) = false ->
  distance a (as_vec b) = distance b (as_vec a).
Proof.
  intros Ha Hb. unfold distance, as_vec, get_x, get_y, get_z.
  cbn [vx vy vz prop_or_else].
  rewrite (sq_sub_or_zero (_z a) (_z b) Hb), (sq_sub_or_zero (_z b) (_z a) Ha).
  rewrite (Binary64Alg.sq_sub_swap (_x a) (_x b)).
  rewrite (Binary64Alg.sq_sub_swap (_y a) (_y b)).
  rewrite (Binary64Alg.sq_sub_swap (_z a) (_z b)).
  reflexivity.
Qed.

Lemma sub_or_zero_diag (z : number) :
  is_finite z = true -> is_zero (z - (z ||| 0)) = true.
Proof.
  intros Hz. unfold or_else, truthy.
  rewrite (Binary64Alg.is_finite_not_nan z Hz). cbn [orb].
  destruct (is_zero z) eqn:H0; cbn [negb].
  - rewrite Binary64.sub_zero. exact H0.
  - rewrite (Binary64Alg.sub_diag z Hz). reflexivity.
Qed.

(** X13.  The distance from a vector with finite coordinates to itself
    is [0]. *)
Theorem distance_to_itself (o : ObservableVector3d) :
  is_finite (_x o) = true ->
  is_finite (_y o) = true ->
  is_finite (_z o) = true ->
  distance o (as_vec o) = 0.
Proof.
  intros Hx Hy Hz. unfold distance, as_vec, get_x, get_y, get_z.
  cbn [vx vy vz prop_or_else].
  rewrite (Binary64Alg.sub_diag _ Hx), (Binary64Alg.sub_diag _ Hy).
  rewrite (Binary64Alg.sq_zero _ (sub_or_zero_diag _ Hz)).
  reflexivity.
Qed.

(** X14.  The [z] stored by [setMuted], by [onResetEvent], by a
    constructor that returns, and by any batch mutation under a callback
    that does not override, is never [NaN]. *)
Theorem z_is_sanitised (E : Env) (w : world) :
  (forall x y z, is_nan (_z (this (snd (setMuted x y z w)))) = false) /\
  (forall x y z s,
      is_nan (_z (this (snd (onResetEvent x y z s w)))) = false) /\
  (forall x y z s o w',
      new_ObservableVector3d x y z s w = (Ok o, w') -> is_nan (_z o) = false) /\
  (forall f m,
      onUpdate (this w) = Some f -> notifies_only f ->
      is_nan (_z (this (snd (exec E m w)))) = false).
Proof.
  split; [| split; [| split]].
  - intros x y z. rewrite setMuted_run. cbn [snd this _z].
    destruct z as [n|]; [apply or_zero_not_nan | reflexivity].
  - intros x y z s. rewrite onResetEvent_run.
    destruct s as [[[] sc]|]; cbn [snd this _z]; apply or_zero_not_nan.
  - intros x y z s o w' H. destruct s as [[fn sc]|].
    + destruct fn;
        try (rewrite new_not_function in H by reflexivity; discriminate).
      rewrite new_function in H. injection H as <- _. apply or_zero_not_nan.
    + rewrite new_without_settings in H. discriminate.
  - intros f m Hf Hn. destruct (exec_is__set E m w) as (a & b & c & ->).
    rewrite (_set_quiet w f _ _ _ Hf Hn). apply or_zero_not_nan.
Qed.

(** The setter of [z] and the first two coordinates are not covered:
    [a.z = NaN] stores [NaN], and [(0, 0, 0).div(0)] leaves [x] at [NaN]. *)
Example nan_gets_in :
  let a := mk_ov 0 0 0 (Some cb_silent) ScopeNull in
  is_nan (_z (this (snd (set_z nan (start a))))) = true /\
  is_nan (_x (this (snd (div 0 (start a))))) = true.
Proof. split; vm_compute; reflexivity. Qed.

Lemma run_write (E : Env) (op : operation) (w : world) :
  is_write op = true ->
  bound (this w) ->
  exists w',
    run_op E op w = (Ok tt, w') /\
    length (calls w') = S (length (calls w)) /\
    bound (this w') /\
    pool w' = pool w.
Proof.
  intros Hop [f Hf].
  destruct op as [v|v|v|m| | | | | | | | |]; try discriminate; cbn [run_op].
  - rewrite (set_x_run w f v Hf). eexists. split; [reflexivity |].
    cbn [calls this pool]. rewrite length_app. cbn.
    split; [lia |]. split; [eexists |]; reflexivity.
  - rewrite (set_y_run w f v Hf). eexists. split; [reflexivity |].
    cbn [calls this pool]. rewrite length_app. cbn.
    split; [lia |]. split; [eexists |]; reflexivity.
  - rewrite (set_z_run w f v Hf). eexists. split; [reflexivity |].
    cbn [calls this pool]. rewrite length_app. cbn.
    split; [lia |]. split; [eexists |]; reflexivity.
  - destruct (exec_is__set E m w) as (a & b & c & Hm).
    rewrite (_set_run w f a b c Hf) in Hm.
    eexists. split; [apply run_op_mutation, Hm |].
    cbn [calls this pool]. rewrite length_app. cbn.
    split; [lia |]. split; [| reflexivity].
    destruct (has_key _ "x" && has_key _ "y" && has_key _ "z");
      eexists; reflexivity.
Qed.

(** X15.  A chain of setter writes and batch mutations on a bound
    vector runs to its end without throwing, invokes a callback exactly once
    per link, leaves the vector bound and does not touch the pool. *)
Theorem chain_fires_once_per_write (E : Env) (ops : list operation)
    (w : world) :
  bound (this w) ->
  forallb is_write ops = true ->
  exists w',
    run_ops E ops w = (Ok tt, w') /\
    length (calls w') = (length (calls w) + length ops)%nat /\
    bound (this w') /\
    pool w' = pool w.
Proof.
  revert w. induction ops as [|op rest IH]; intros w Hb Hw.
  - exists w. cbn. repeat split; [lia | exact Hb].
  - cbn [forallb] in Hw. apply andb_prop in Hw. destruct Hw as [Hop Hrest].
    destruct (run_write E op w Hop Hb) as (w1 & H1 & Hl1 & Hb1 & Hp1).
    destruct (IH w1 Hb1 Hrest) as (w' & H' & Hl' & Hb' & Hp').
    exists w'. rewrite (run_ops_cons E op rest w w1 H1).
    split; [exact H' |]. split; [cbn [length]; lia |].
    split; [exact Hb' | congruence].
Qed.

(** X16.  After [setCallback(g, scope)], whatever was bound before, the
    next batch mutation invokes [g] once, with the scope given ([null] when
    none is) and the coordinates [setCallback] left untouched as old values;
    nothing else is invoked. *)
Theorem rebinding_takes_effect (E : Env) (m : mutation) (w : world)
    (g : callback) (sc : scope_val) :
  let o := this w in
  exists w1 w2 x y z,
    setCallback (JFunction g) sc w = (Ok RefThis, w1) /\
    exec E m w1 = (Ok RefThis, w2) /\
    coords (this w1) = coords o /\
    calls w2 =
      (calls w ++
       [mk_call g (scope_or_null sc) (x, y, z) (_x o, _y o, _z o)])%list /\
    onUpdate (this w2) = Some g /\
    scope (this w2) = scope_or_null sc.
Proof.
  intros o.
  set (w1 := mk_world (mk_ov (_x o) (_y o) (_z o) (Some g) (scope_or_null sc))
                      (calls w) (pool w)).
  destruct (exec_is__set E m w1) as (x & y & z & Hm).
  rewrite (_set_run w1 g x y z eq_refl) in Hm.
  exists w1. eexists. exists x, y, z.
  split; [apply setCallback_function |]. split; [exact Hm |].
  cbn [this calls coords _x _y _z scope onUpdate w1].
  repeat split;
    destruct (has_key _ "x" && has_key _ "y" && has_key _ "z"); reflexivity.
Qed.

(** X17.  [moveTowards] either returns its argument and leaves the world
    as it is, or is one batch write whose third argument is the stored [z].
    It returns its argument when the target has this vector's finite [x] and
    [y], whatever the step; with a step below zero it writes unless the
    distance is [=== 0]. *)
Theorem moveTowards_outcomes (E : Env) (target : vec) (step : number)
    (w : world) :
  let o := this w in
  let dx := _x o - vx target in
  let dy := _y o - vy target in
  let d := Math_sqrt (dx * dx + dy * dy) in
  (moveTowards E target step w = (Ok (RefArg target), w) \/
   exists a b, moveTowards E target step w = _set a b (_z o) w) /\
  (is_finite (_x o) = true -> is_finite (_y o) = true ->
   vx target = _x o -> vy target = _y o ->
   moveTowards E target step w = (Ok (RefArg target), w)) /\
  ((step <? 0) = true -> (d === 0) = false ->
   exists a b, moveTowards E target step w = _set a b (_z o) w).
Proof.
  intros o dx dy d. rewrite moveTowards_cases. fold o dx dy d.
  split; [| split].
  - destruct ((d === 0) || _); [left | right; do 2 eexists]; reflexivity.
  - intros Hx Hy Ex Ey. subst d dx dy. rewrite Ex, Ey.
    rewrite (Binary64Alg.sub_diag _ Hx), (Binary64Alg.sub_diag _ Hy).
    reflexivity.
  - intros Hs Hd. rewrite Hd, (Binary64Alg.ltb_not_leb _ _ Hs).
    do 2 eexists. reflexivity.
Qed.

Lemma abs_expr_idem (x : number) :
  let a := if x <? 0 then - x else x in
  (if a <? 0 then - a else a) = a.
Proof.
  intros a. subst a. rewrite Binary64.abs_expr_not_negative. reflexivity.
Qed.

(** X18.  Under a callback that does not override, a second [abs()]
    commits the coordinates the first one left. *)
Theorem abs_idempotent (w : world) (f : callback) :
  onUpdate (this w) = Some f ->
  notifies_only f ->
  exists w1 w2,
    abs w = (Ok RefThis, w1) /\
    abs w1 = (Ok RefThis, w2) /\
    coords (this w2) = coords (this w1).
Proof.
  intros Hf Hn.
  assert (H : forall w0, onUpdate (this w0) = Some f ->
            abs w0 = (Ok RefThis, _))
    by (intros w0 H0; unfold abs; run_M; cbn [prop_lt _Z];
        apply (_set_quiet w0 f _ _ _ H0 Hn)).
  do 2 eexists. split; [apply (H w Hf) |]. split; [apply H; reflexivity |].
  cbn [this coords _x _y _z]. rewrite !abs_expr_idem, or_zero_idem.
  reflexivity.
Qed.

Lemma or_zero_of_not_finite (z : number) :
  is_finite z = false -> z ||| 0 = 0 \/ is_infinity (z ||| 0) = true.
Proof.
  intros H. unfold or_else, truthy.
  destruct (Binary64Alg.not_finite_cases z H) as [Hn | Hi].
  - rewrite Hn. left. reflexivity.
  - destruct (Binary64Alg.is_infinity_not_zero z Hi) as [Hn Hz].
    rewrite Hn, Hz. right. exact Hi.
Qed.

(** X19.  [div(0)] does not throw; under a callback that does not
    override it leaves [x] and [y] not finite ([NaN] or an infinity) and [z]
    either [0] or an infinity. *)
Theorem div_by_zero (w : world) (f : callback) :
  onUpdate (this w) = Some f ->
  notifies_only f ->
  exists w',
    div 0 w = (Ok RefThis, w') /\
    is_finite (_x (this w')) = false /\
    is_finite (_y (this w')) = false /\
    (_z (this w') = 0 \/ is_infinity (_z (this w')) = true).
Proof.
  intros Hf Hn. eexists.
  split; [unfold div; run_M; apply (_set_quiet w f _ _ _ Hf Hn) |].
  cbn [this _x _y _z].
  split; [apply Binary64Alg.div_zero_not_finite |].
  split; [apply Binary64Alg.div_zero_not_finite |].
  apply or_zero_of_not_finite, Binary64Alg.div_zero_not_finite.
Qed.

(** X20.  [equals] is not symmetric: for two observable vectors with
    [===] [x] and [y], where [a.z] is truthy and [b.z] is a zero,
    [a.equals(b)] is [true] and [b.equals(a)] is [false]. *)
Theorem equals_not_symmetric (a b : ObservableVector3d) :
  (_x a === _x b) = true ->
  (_y a === _y b) = true ->
  truthy (_z a) = true ->
  is_zero (_z b) = true ->
  equals a (as_vec b) = true /\ equals b (as_vec a) = false.
Proof.
  intros Hx Hy Ha Hb. rewrite !equals_cases.
  unfold as_vec, get_x, get_y, get_z. cbn [vx vy vz].
  assert (Hbt : truthy (_z b) = false)
    by (unfold truthy; rewrite Hb, orb_true_r; reflexivity).
  rewrite Hbt, Ha, Hx, Hy, (truthy_not_nan _ Ha). split; [reflexivity |].
  unfold strict_eq. rewrite (Binary64Alg.eqb_zero_l _ _ Hb).
  unfold truthy in Ha. destruct (is_zero (_z a)).
  - rewrite orb_true_r in Ha. discriminate.
  - rewrite andb_false_r. reflexivity.
Qed.

(** X21.  Under a callback that does not override, [sub(Vector3d(0,0,0))],
    [scale(1)] and [scaleV(Vector3d(1,1,1))] commit exactly [(x, y, z || 0)],
    and [add(Vector3d(0,0,0))] coordinates [===] to the former ones when
    none is [NaN]. *)
Theorem neutral_arguments (w : world) (f : callback) :
  onUpdate (this w) = Some f ->
  notifies_only f ->
  let o := this w in
  let kept w' := coords (this w') = (_x o, _y o, _z o ||| 0) in
  (exists w', sub (Vector3d 0 0 0) w = (Ok RefThis, w') /\ kept w') /\
  (exists w', scale 1 None None w = (Ok RefThis, w') /\ kept w') /\
  (exists w', scaleV (Vector3d 1 1 1) w = (Ok RefThis, w') /\ kept w') /\
  (is_nan (_x o) = false -> is_nan (_y o) = false -> is_nan (_z o) = false ->
   exists w', add (Vector3d 0 0 0) w = (Ok RefThis, w') /\
              same_coords (coords (this w')) (coords o) = true).
Proof.
  intros Hf Hn o kept. subst kept. cbv beta.
  split; [| split; [| split]].
  - eexists. split; [unfold sub; run_M; apply (_set_quiet w f _ _ _ Hf Hn) |].
    cbn [this coords _x _y _z vx vy vz Vector3d prop_or_else]. fold o.
    change (Some 0 ?|| 0) with 0. rewrite !Binary64.sub_zero. reflexivity.
  - eexists. split; [unfold scale; run_M; apply (_set_quiet w f _ _ _ Hf Hn) |].
    cbn [this coords _x _y _z default_arg]. fold o.
    rewrite !Binary64.mul_one. reflexivity.
  - eexists. split; [unfold scaleV; run_M; apply (_set_quiet w f _ _ _ Hf Hn) |].
    cbn [this coords _x _y _z vx vy vz Vector3d]. fold o.
    change (Some 1 ?|| 1) with 1. rewrite !Binary64.mul_one. reflexivity.
  - intros Hx Hy Hz.
    eexists. split; [unfold add; run_M; apply (_set_quiet w f _ _ _ Hf Hn) |].
    cbn [this coords _x _y _z vx vy vz Vector3d same_coords]. fold o.
    change (Some 0 ?|| 0) with 0. unfold strict_eq.
    rewrite !Binary64.add_zero_strict_eq, Hx, Hy. cbn [negb andb].
    apply Binary64.or_zero_eqb. rewrite Binary64.add_zero_strict_eq, Hz.
    reflexivity.
Qed.

(** X22.  For a truthy third factor [z], [scale(x, y, z)] and
    [scaleV(Vector3d(x, y, z))] are the same call. *)
Theorem scale_agrees_with_scaleV (w : world) (x y z : number) :
  truthy z = true ->
  scale x (Some y) (Some z) w = scaleV (Vector3d x y z) w.
Proof.
  intros Hz. unfold scale, scaleV. run_M.
  cbn [default_arg vx vy vz Vector3d prop_or_else]. unfold or_else.
  rewrite Hz. reflexivity.
Qed.



Lemma negateSelf_twice_witness :
  onUpdate (this w123) = Some cb_silent /\
  notifies_only cb_silent /\
  exists w1 w2,
    negateSelf w123 = (Ok RefThis, w1) /\
    negateSelf w1 = (Ok RefThis, w2) /\
    coords (this w1) = (-1, -2, -3) /\
    coords (this w2) = (1, 2, 3) /\
    length (calls w2) = 2%nat.
Proof.
  split; [reflexivity |]. split; [exact cb_silent_notifies_only |].
  exact (negateSelf_twice w123 cb_silent eq_refl cb_silent_notifies_only).
Defined.

Lemma perp_four_times_witness :
  onUpdate (this w123) = Some cb_silent /\
  notifies_only cb_silent /\
  exists w2 w4,
    run_ops env0 (replicate 2 (OpMutation MPerp)) w123 = (Ok tt, w2) /\
    run_ops env0 (replicate 4 (OpMutation MPerp)) w123 = (Ok tt, w4) /\
    coords (this w2) = (-1, -2, 3) /\
    coords (this w4) = (1, 2, 3) /\
    length (calls w4) = 4%nat.
Proof.
  split; [reflexivity |]. split; [exact cb_silent_notifies_only |].
  exact (perp_four_times env0 w123 cb_silent eq_refl cb_silent_notifies_only).
Defined.

Lemma twin_new_is_silent_witness :
  onUpdate (this w123) = Some cb_silent /\
  exists c,
    negate w123 = (Ok c, w123) /\
    coords c = (-1, -2, -3) /\
    onUpdate c = Some cb_silent /\
    scope c = ScopeNull.
Proof.
  split; [reflexivity |].
  destruct (twin_new_is_silent env0 TNegate w123 cb_silent eq_refl)
    as (c & Hrun & Hf & Hs & _).
  exists c. split; [exact Hrun |].
  split; [| split; [exact Hf | exact Hs]].
  cbn [twin_new] in Hrun. vm_compute in Hrun. injection Hrun as <-.
  reflexivity.
Defined.

Lemma copy_then_equals_witness :
  onUpdate (this w123) = Some cb_silent /\
  notifies_only cb_silent /\
  exists w',
    copy (Vector2d 5 7) w123 = (Ok RefThis, w') /\
    coords (this w') = (5, 7, 0) /\
    equals (this w') (Vector2d 5 7) = true.
Proof.
  split; [reflexivity |]. split; [exact cb_silent_notifies_only |].
  exact (copy_then_equals w123 cb_silent (Vector2d 5 7) eq_refl
           cb_silent_notifies_only).
Defined.

Lemma lerp_alpha_zero_witness :
  onUpdate (this w123) = Some cb_silent /\
  notifies_only cb_silent /\
  is_finite (5 - 1) = true /\ is_finite (7 - 2) = true /\
  is_finite (9 - 3) = true /\
  exists w',
    lerp (Vector3d 5 7 9) 0 w123 = (Ok RefThis, w') /\
    same_coords (coords (this w')) (1, 2, 3) = true.
Proof.
  split; [reflexivity |]. split; [exact cb_silent_notifies_only |].
  do 3 (split; [reflexivity |]).
  exact (lerp_alpha_zero w123 cb_silent 5 7 9 eq_refl cb_silent_notifies_only
           eq_refl eq_refl eq_refl).
Defined.

Lemma lerp_towards_itself_witness :
  onUpdate (this w123) = Some cb_silent /\
  notifies_only cb_silent /\
  is_finite 1 = true /\ is_finite 2 = true /\ is_finite 3 = true /\
  is_finite 0.5 = true /\
  exists w',
    lerp (as_vec o123) 0.5 w123 = (Ok RefThis, w') /\
    same_coords (coords (this w')) (1, 2, 3) = true.
Proof.
  split; [reflexivity |]. split; [exact cb_silent_notifies_only |].
  do 4 (split; [reflexivity |]).
  exact (lerp_towards_itself w123 cb_silent 0.5 eq_refl
           cb_silent_notifies_only eq_refl eq_refl eq_refl eq_refl).
Defined.

Lemma planar_mutations_keep_z_witness :
  planar (MScale 2 None None) = true /\
  (exists a b, scale 2 None None w123 = _set a b 3 w123) /\
  z_kept (scale 2 None None) w123.
Proof.
  split; [reflexivity |].
  destruct (planar_mutations_keep_z env0 (MScale 2 None None) w123 eq_refl)
    as [H1 H2].
  split; [exact H1 |].
  exact (H2 cb_silent eq_refl cb_silent_notifies_only eq_refl).
Defined.

Lemma minV_maxV_bound_witness :
  onUpdate (this w123) = Some cb_silent /\
  notifies_only cb_silent /\
  (exists w',
      minV (Vector2d 0 5) w123 = (Ok RefThis, w') /\
      coords (this w') = (0, 2, 0)) /\
  (exists w',
      maxV (Vector2d 0 5) w123 = (Ok RefThis, w') /\
      coords (this w') = (1, 5, 3)).
Proof.
  split; [reflexivity |]. split; [exact cb_silent_notifies_only |].
  destruct (minV_maxV_bound w123 cb_silent (Vector2d 0 5) eq_refl
              cb_silent_notifies_only eq_refl eq_refl eq_refl eq_refl eq_refl)
    as [(w1 & H1 & _) (w2 & H2 & _)].
  split.
  - exists w1. split; [exact H1 |].
    vm_compute in H1. injection H1 as <-. reflexivity.
  - exists w2. split; [exact H2 |].
    vm_compute in H2. injection H2 as <-. reflexivity.
Defined.

Lemma cross_with_itself_witness :
  onUpdate (this w123) = Some cb_silent /\
  notifies_only cb_silent /\
  is_finite (2 * 3) = true /\ is_finite (3 * 1) = true /\
  is_finite (1 * 2) = true /\
  exists w',
    cross (as_vec o123) w123 = (Ok RefThis, w') /\
    coords (this w') = (0, 0, 0).
Proof.
  split; [reflexivity |]. split; [exact cb_silent_notifies_only |].
  do 3 (split; [reflexivity |]).
  exact (cross_with_itself w123 cb_silent eq_refl cb_silent_notifies_only
           eq_refl eq_refl eq_refl).
Defined.

Lemma distance_symmetric_witness :
  is_nan 3 = false /\ is_nan 3 = false /\
  distance o123 (as_vec (mk_ov 4 6 3 None ScopeUndefined)) = 5 /\
  distance (mk_ov 4 6 3 None ScopeUndefined) (as_vec o123) = 5.
Proof.
  split; [reflexivity |]. split; [reflexivity |].
  pose proof (distance_symmetric o123 (mk_ov 4 6 3 None ScopeUndefined)
                eq_refl eq_refl) as H.
  split; [| rewrite <- H]; vm_compute; reflexivity.
Defined.

Lemma distance_to_itself_witness :
  is_finite 1 = true /\ is_finite 2 = true /\ is_finite 3 = true /\
  distance o123 (as_vec o123) = 0.
Proof.
  do 3 (split; [reflexivity |]).
  exact (distance_to_itself o123 eq_refl eq_refl eq_refl).
Defined.

Lemma chain_fires_once_per_write_witness :
  bound (this w123) /\
  forallb is_write
    [OpMutation (MAdd (Vector3d 1 1 1)); OpSetX 5; OpMutation MNegateSelf]
    = true /\
  exists w',
    run_ops env0
      [OpMutation (MAdd (Vector3d 1 1 1)); OpSetX 5; OpMutation MNegateSelf]
      w123 = (Ok tt, w') /\
    length (calls w') = 3%nat /\
    coords (this w') = (-5, -3, -4).
Proof.
  assert (Hb : bound (this w123)) by (exists cb_silent; reflexivity).
  split; [exact Hb |]. split; [reflexivity |].
  destruct (chain_fires_once_per_write env0
              [OpMutation (MAdd (Vector3d 1 1 1)); OpSetX 5;
               OpMutation MNegateSelf] w123 Hb eq_refl)
    as (w' & Hrun & Hl & _).
  exists w'. split; [exact Hrun |]. split; [exact Hl |].
  vm_compute in Hrun. injection Hrun as <-. reflexivity.
Defined.

Lemma abs_idempotent_witness :
  onUpdate (this (start (mk_ov (-1) 2 (-3) (Some cb_silent) ScopeNull)))
    = Some cb_silent /\
  notifies_only cb_silent /\
  exists w1 w2,
    abs (start (mk_ov (-1) 2 (-3) (Some cb_silent) ScopeNull))
      = (Ok RefThis, w1) /\
    abs w1 = (Ok RefThis, w2) /\
    coords (this w2) = coords (this w1).
Proof.
  split; [reflexivity |]. split; [exact cb_silent_notifies_only |].
  exact (abs_idempotent
           (start (mk_ov (-1) 2 (-3) (Some cb_silent) ScopeNull))
           cb_silent eq_refl cb_silent_notifies_only).
Defined.

Lemma div_by_zero_witness :
  onUpdate (this w123) = Some cb_silent /\
  notifies_only cb_silent /\
  exists w',
    div 0 w123 = (Ok RefThis, w') /\
    coords (this w') = (infinity, infinity, infinity).
Proof.
  split; [reflexivity |]. split; [exact cb_silent_notifies_only |].
  destruct (div_by_zero w123 cb_silent eq_refl cb_silent_notifies_only)
    as (w' & Hrun & _).
  exists w'. split; [exact Hrun |].
  vm_compute in Hrun. injection Hrun as <-. reflexivity.
Defined.

Lemma equals_not_symmetric_witness :
  (1 === 1) = true /\ (2 === 2) = true /\ truthy 3 = true /\
  is_zero 0 = true /\
  equals o123 (as_vec (mk_ov 1 2 0 None ScopeUndefined)) = true /\
  equals (mk_ov 1 2 0 None ScopeUndefined) (as_vec o123) = false.
Proof.
  do 4 (split; [reflexivity |]).
  exact (equals_not_symmetric o123 (mk_ov 1 2 0 None ScopeUndefined)
           eq_refl eq_refl eq_refl eq_refl).
Defined.

Lemma neutral_arguments_witness :
  onUpdate (this w123) = Some cb_silent /\
  notifies_only cb_silent /\
  exists w',
    scale 1 None None w123 = (Ok RefThis, w') /\
    coords (this w') = (1, 2, 3).
Proof.
  split; [reflexivity |]. split; [exact cb_silent_notifies_only |].
  destruct (neutral_arguments w123 cb_silent eq_refl cb_silent_notifies_only)
    as (_ & H & _).
  exact H.
Defined.

Lemma scale_agrees_with_scaleV_witness :
  truthy 4 = true /\
  scale 2 (Some 3) (Some 4) w123 = scaleV (Vector3d 2 3 4) w123.
Proof.
  split; [reflexivity |].
  exact (scale_agrees_with_scaleV w123 2 3 4 eq_refl).
Defined.

Lemma cb_silent_never_overrides : never_overrides cb_silent.
Proof. intros sc a b c a' b' c'. repeat split; left; reflexivity. Qed.

(** X27.  Three setter writes [a.x = p; a.y = q; a.z = r] under a callback
    that overrides nothing store [(p, q, r)] verbatim, also a [NaN] or a
    negative zero in [z], and invoke the callback three times; each
    invocation sees the writes before it in its old values and in the
    coordinates that are not being written. *)
Theorem setters_in_sequence (w : world) (f : callback) (p q r : number) :
  onUpdate (this w) = Some f ->
  never_overrides f ->
  let o := this w in
  exists w',
    (set_x p;; set_y q;; set_z r) w = (Ok tt, w') /\
    coords (this w') = (p, q, r) /\
    calls w' =
      (calls w ++
       [mk_call f (scope o) (p, _y o, _z o) (_x o, _y o, _z o);
        mk_call f (scope o) (p, q, _z o) (p, _y o, _z o);
        mk_call f (scope o) (p, q, r) (p, q, _z o)])%list.
Proof.
  intros Hf Hn o. run_M.
  assert (Hk : forall sc a b c a' b' c' k,
             k = "x" \/ k = "y" \/ k = "z" ->
             has_key (f sc a b c a' b' c') k = false).
  { intros sc a b c a' b' c' k Hk. apply has_key_false.
    destruct (Hn sc a b c a' b' c') as (Hx & Hy & Hz).
    destruct Hk as [-> | [-> | ->]]; assumption. }
  rewrite (set_x_run w f p Hf). cbv zeta. rewrite Hk by auto.
  rewrite set_y_run with (f := f) by reflexivity.
  cbv zeta. cbn [this calls pool _x _y _z scope]. rewrite Hk by auto.
  rewrite set_z_run with (f := f) by reflexivity.
  cbv zeta. cbn [this calls pool _x _y _z scope]. rewrite Hk by auto.
  eexists. split; [reflexivity |]. split; [reflexivity |].
  cbn [calls]. rewrite <- !app_assoc. reflexivity.
Qed.

Lemma setters_in_sequence_witness :
  onUpdate (this w123) = Some cb_silent /\
  never_overrides cb_silent /\
  exists w',
    (set_x 7;; set_y 8;; set_z nan) w123 = (Ok tt, w') /\
    coords (this w') = (7, 8, nan) /\
    length (calls w') = 3%nat.
Proof.
  split; [reflexivity |]. split; [exact cb_silent_never_overrides |].
  destruct (setters_in_sequence w123 cb_silent 7 8 nan eq_refl
              cb_silent_never_overrides) as (w' & Hrun & Hc & Hl).
  exists w'. split; [exact Hrun |]. split; [exact Hc |].
  rewrite Hl. reflexivity.
Defined.

(** ** Entities *)

Module EntityFacts.

Import Entity.

Lemma goTo_fading (level : option string) (e : level_entity) :
  fades e = true -> fading e = true ->
  goTo level e =
    (mk_level_entity (nextlevel e) (fade e) (duration e) true (name e)
                     (level_or level (nextlevel e)), []).
Proof.
  intros Hf Hg. unfold goTo. unfold fades in Hf. rewrite Hf, Hg. reflexivity.
Qed.

Lemma last_nonempty {A} (x : A) (l : list A) (d d' : A) :
  List.last (x :: l) d = List.last (x :: l) d'.
Proof.
  revert x. induction l as [|y l IH]; intros x; [reflexivity |].
  exact (IH y).
Qed.

Lemma goTo_all_fading (levels : list (option string)) (e : level_entity) :
  fades e = true -> fading e = true ->
  let e' := fst (goTo_all levels e) in
  snd (goTo_all levels e) = [] /\
  fading e' = true /\
  fade e' = fade e /\
  duration e' = duration e /\
  nextlevel e' = nextlevel e /\
  gotolevel e' =
    List.last (map (fun l => level_or l (nextlevel e)) levels) (gotolevel e).
Proof.
  revert e. induction levels as [|level rest IH]; intros e Hf Hg.
  - cbn. auto 6.
  - cbn [goTo_all]. rewrite (goTo_fading level e Hf Hg).
    set (e1 := mk_level_entity _ _ _ _ _ _).
    destruct (IH e1 Hf eq_refl) as (Hev & Hfa & Hfd & Hd & Hn & Ht).
    destruct (goTo_all rest e1) as [e2 ev2]. cbn [fst snd] in *.
    subst ev2. repeat split; try assumption.
    rewrite Ht. cbn [nextlevel gotolevel e1 map].
    destruct rest as [|l rest']; [reflexivity |].
    cbn [map]. rewrite (last_nonempty _ _ _ (gotolevel e)). reflexivity.
Qed.

Lemma last_map_level (next : option string) (levels : list (option string))
    (level : option string) :
  List.last (map (fun l => level_or l next) levels) (level_or level next)
  = level_or (List.last levels level) next.
Proof.
  induction levels as [|l rest IH]; [reflexivity |].
  cbn [map]. destruct rest as [|l' rest']; [reflexivity |].
  exact IH.
Qed.

(** X23.  A level entity that fades and is not fading yet starts exactly
    one fade over any sequence of [goTo] calls and loads no level by
    itself; the calls after the first only replace the level to go to, and
    [onFadeComplete] loads the level of the last call ([nextlevel] where
    that call named none). *)
Theorem goTo_fades_once (level : option string)
    (levels : list (option string)) (e : level_entity) :
  fades e = true ->
  fading e = false ->
  let e' := fst (goTo_all (level :: levels) e) in
  snd (goTo_all (level :: levels) e) = [FadeIn (fade e) (duration e)] /\
  fading e' = true /\
  gotolevel e' = level_or (List.last levels level) (nextlevel e) /\
  snd (onFadeComplete e') =
    [LoadLevel (level_or (List.last levels level) (nextlevel e));
     FadeOut (fade e) (duration e)].
Proof.
  intros Hf Hg e'. subst e'. cbn [goTo_all]. unfold goTo.
  pose proof Hf as Hf'. unfold fades in Hf'. rewrite Hf', Hg. cbn [negb].
  set (e1 := mk_level_entity _ _ _ true _ _).
  destruct (goTo_all_fading levels e1 Hf eq_refl)
    as (Hev & Hfa & Hfd & Hd & Hn & Ht).
  destruct (goTo_all levels e1) as [e2 ev2]. cbn [fst snd] in *. subst ev2.
  cbn [nextlevel gotolevel e1] in Ht. rewrite last_map_level in Ht.
  cbn [fade duration e1] in Hfd, Hd.
  unfold onFadeComplete. cbn [snd app]. rewrite Ht, Hfd, Hd. auto.
Qed.

Lemma goTo_not_fading (level : option string) (e : level_entity) :
  fades e = false ->
  goTo level e =
    (mk_level_entity (nextlevel e) (fade e) (duration e) (fading e) (name e)
                     (level_or level (nextlevel e)),
     [LoadLevel (level_or level (nextlevel e))]).
Proof.
  intros Hf. unfold goTo. unfold fades in Hf. rewrite Hf. reflexivity.
Qed.

(** X24.  A level entity without a fade colour or a duration loads a
    level at every [goTo], the one named or else [nextlevel], and never
    changes [fading]; [onCollision] returns [false], and is [goTo()] exactly
    when the entity is still named [levelEntity]. *)
Theorem goTo_loads_every_time (levels : list (option string))
    (e : level_entity) :
  fades e = false ->
  snd (goTo_all levels e) =
    map (fun l => LoadLevel (level_or l (nextlevel e))) levels /\
  fading (fst (goTo_all levels e)) = fading e /\
  fst (onCollision e) = false /\
  (name e = "levelEntity" -> snd (onCollision e) = goTo None e) /\
  (name e <> "levelEntity" -> snd (onCollision e) = (e, [])).
Proof.
  intros Hf. split; [| split; [| split; [reflexivity | split]]].
  - revert e Hf. induction levels as [|level rest IH]; intros e Hf;
      [reflexivity |].
    cbn [goTo_all map]. rewrite (goTo_not_fading level e Hf).
    set (e1 := mk_level_entity _ _ _ _ _ _).
    specialize (IH e1 Hf). destruct (goTo_all rest e1) as [e2 ev2].
    cbn [snd] in *. rewrite IH. reflexivity.
  - revert e Hf. induction levels as [|level rest IH]; intros e Hf;
      [reflexivity |].
    cbn [goTo_all]. rewrite (goTo_not_fading level e Hf).
    set (e1 := mk_level_entity _ _ _ _ _ _).
    specialize (IH e1 Hf). destruct (goTo_all rest e1) as [e2 ev2].
    cbn [fst] in *. exact IH.
  - intros Hn. unfold onCollision. rewrite Hn. reflexivity.
  - intros Hn. unfold onCollision. cbn [snd].
    destruct (String.eqb (name e) "levelEntity") eqn:H; [| reflexivity].
    apply String.eqb_eq in H. contradiction.
Qed.

(** X25.  [flipX(flip)] records the flag; it calls nothing when the flag
    is the recorded one, and otherwise calls [flipX] on the renderable, if
    there is one that has it, and then on the body, if there is one; a second
    call with the same flag does nothing.  [flipY] does the same. *)
Theorem flip_forwards_changes_once (flip : bool) (e : entity) :
  (let '(e1, events1) := flipX flip e in
   flipX flip e1 = (e1, []) /\
   lastflipX e1 = flip /\
   (lastflipX e = flip -> e1 = e /\ events1 = []) /\
   (lastflipX e <> flip ->
    events1 =
      (match renderable e with
       | Some r => if has_flipX r then [RenderableFlipX flip] else []
       | None => []
       end ++ if body e then [BodyFlipX flip] else [])%list)) /\
  (let '(e1, events1) := flipY flip e in
   flipY flip e1 = (e1, []) /\
   lastflipY e1 = flip /\
   (lastflipY e = flip -> e1 = e /\ events1 = []) /\
   (lastflipY e <> flip ->
    events1 =
      (match renderable e with
       | Some r => if has_flipY r then [RenderableFlipY flip] else []
       | None => []
       end ++ if body e then [BodyFlipY flip] else [])%list)).
Proof.
  unfold flipX, flipY, bool_neq.
  destruct e as [r b lx ly]. cbn [lastflipX renderable body lastflipY].
  split.
  - destruct flip, lx; cbn [Bool.eqb negb]; repeat split;
      try congruence; try reflexivity; intros; congruence.
  - destruct flip, ly; cbn [Bool.eqb negb]; repeat split;
      try congruence; try reflexivity; intros; congruence.
Qed.

(** X26.  [a.distanceTo(e)] is [e.distanceTo(a)], for all positions
    and half extents. *)
Theorem distanceTo_symmetric (a e : placed) :
  distanceTo a e = distanceTo e a.
Proof.
  unfold distanceTo.
  rewrite (Binary64Alg.sq_sub_swap (pos_x a + hWidth a) (pos_x e + hWidth e)).
  rewrite (Binary64Alg.sq_sub_swap (pos_y a + hHeight a) (pos_y e + hHeight e)).
  reflexivity.
Qed.


Lemma goTo_fades_once_witness :
  fades fader = true /\
  fading fader = false /\
  goTo_all [None; Some "map3"] fader =
    (mk_level_entity (Some "map2") (Some "#000") (Some 250) true "levelEntity"
                     (Some "map3"),
     [FadeIn (Some "#000") (Some 250)]) /\
  snd (onFadeComplete (fst (goTo_all [None; Some "map3"] fader))) =
    [LoadLevel (Some "map3"); FadeOut (Some "#000") (Some 250)].
Proof.
  split; [reflexivity |]. split; [reflexivity |].
  destruct (goTo_fades_once None [Some "map3"] fader eq_refl eq_refl)
    as (_ & _ & _ & H).
  split; [reflexivity | exact H].
Defined.

Lemma goTo_loads_every_time_witness :
  fades (mk_level_entity (Some "map2") None None false "levelEntity" None)
    = false /\
  snd (goTo_all [None; Some "map3"]
         (mk_level_entity (Some "map2") None None false "levelEntity" None))
  = [LoadLevel (Some "map2"); LoadLevel (Some "map3")].
Proof.
  split; [reflexivity |].
  destruct (goTo_loads_every_time [None; Some "map3"]
              (mk_level_entity (Some "map2") None None false "levelEntity"
                               None) eq_refl) as [H _].
  exact H.
Defined.

End EntityFacts.
